(** * supabase-csv-upsert: the CSV validation and batching pipeline

    A shallow embedding of the command-line tool (index.ts and its compiled
    copy dist/index.js): [analyzeErrors], [upsertCsv] and the commander
    [action].  JavaScript numbers that the program computes with are integers,
    NaN or an infinity; arrays are lists; the objects papaparse builds for the
    rows are finite maps from field names to values.  Console output, file
    access and the calls to the remote service are recorded as a trace of
    events, so that what happens before an upsert call or before file access is
    a statement about that trace. *)

From Stdlib Require Import ZArith Ascii String.
From stdpp Require Import base numbers option list strings gmap.

Local Open Scope string_scope.
Local Open Scope list_scope.
Local Open Scope Z_scope.

(** ** JavaScript numbers, as far as the program uses them *)

Module Js.

Inductive num : Type :=
| NaN
| Inf (negative : bool)
| Fin (z : Z).

Definition add (a b : num) : num :=
  match a, b with
  | NaN, _ | _, NaN => NaN
  | Fin x, Fin y => Fin (x + y)
  | Inf s, Fin _ | Fin _, Inf s => Inf s
  | Inf s, Inf t => if Bool.eqb s t then Inf s else NaN
  end.

(** [a < b]: false as soon as one side is NaN. *)
Definition lt (a b : num) : bool :=
  match a, b with
  | NaN, _ | _, NaN => false
  | Fin x, Fin y => bool_decide (x < y)
  | Inf s, Fin _ => s
  | Fin _, Inf t => negb t
  | Inf s, Inf t => s && negb t
  end.

(** [Math.floor(a / b)] and [Math.ceil(a / b)], the quotient taken exactly. *)
Definition div_rounded (round : Z → Z → Z) (a b : num) : num :=
  match a, b with
  | NaN, _ | _, NaN => NaN
  | Fin x, Fin y =>
      if bool_decide (y = 0)
      then (if bool_decide (x = 0) then NaN else Inf (bool_decide (x < 0)))
      else Fin (round x y)
  | Inf s, Fin y => Inf (xorb s (bool_decide (y < 0)))
  | Fin _, Inf _ => Fin 0
  | Inf _, Inf _ => NaN
  end.

Definition ceil_quot (x y : Z) : Z := - ((- x) `div` y).

Definition floor_div : num → num → num := div_rounded Z.div.
Definition ceil_div : num → num → num := div_rounded ceil_quot.

(** The relative index of [Array.prototype.slice]: NaN counts as 0, a negative
    index counts from the end, and the result is clamped to [0, len]. *)
Definition rel_index (len : Z) (a : num) : Z :=
  match a with
  | NaN => 0
  | Inf true => 0
  | Inf false => len
  | Fin z => if bool_decide (z < 0) then Z.max (len + z) 0 else Z.min z len
  end.

(** [l.slice(start, end)] *)
Definition slice {A : Type} (l : list A) (start end_ : num) : list A :=
  let len := Z.of_nat (length l) in
  let k := rel_index len start in
  let final := rel_index len end_ in
  take (Z.to_nat (final - k)) (drop (Z.to_nat k) l).

(** [parseInt(s, 10)]: leading white space, an optional sign, then the longest
    run of decimal digits; NaN when there is no digit.  White space is the
    ASCII one, and the integer read is kept exactly, whatever its size. *)
Definition is_space (c : ascii) : bool :=
  let n := nat_of_ascii c in
  bool_decide (n = 32 ∨ (9 ≤ n ∧ n ≤ 13))%nat.

Definition digit_of (c : ascii) : option Z :=
  let n := Z.of_nat (nat_of_ascii c) in
  if bool_decide (48 ≤ n ∧ n ≤ 57) then Some (n - 48) else None.

Fixpoint skip_spaces (s : string) : string :=
  match s with
  | String c r => if is_space c then skip_spaces r else s
  | EmptyString => s
  end.

Fixpoint digits (s : string) (acc : option Z) : option Z :=
  match s with
  | String c r =>
      match digit_of c with
      | Some d => digits r (Some (10 * default 0 acc + d))
      | None => acc
      end
  | EmptyString => acc
  end.

Definition parseInt (s : string) : num :=
  let s := skip_spaces s in
  let '(negative, s) :=
    match s with
    | String "-" r => (true, r)
    | String "+" r => (false, r)
    | _ => (false, s)
    end in
  match digits s None with
  | Some n => Fin (if negative : bool then - n else n)
  | None => NaN
  end.

(** Truthiness of a string that may be undefined. *)
Definition truthy (s : option string) : bool :=
  match s with
  | Some (String _ _) => true
  | _ => false
  end.

End Js.

(** ** papaparse, as far as the program's two calls exercise it

    papaparse is a dependency of the tool and not part of its sources.  Both
    calls run the same tokenizer (comma delimiter, double-quote quoting and
    escaping) on the same text; the tokenizer is a parameter here.  What the
    parser does with the tokenized rows afterwards (dropping empty lines, taking
    the header row, the [transform] callback, dynamic typing and the
    FieldMismatch errors of header mode) is written out.  The header is taken
    as it is tokenized: papaparse may give a repeated column name a new name
    of its own before it fills the rows, and where it does not, a later cell
    replaces an earlier one of the same name.  What is said below about the
    field of a column is said for column names that are distinct. *)

Module Papa.

Abbreviation RawRow := (list string).

Record ParseError : Type := mkError {
  err_type : string;
  err_code : string;
  err_row : nat
}.

Record ParseResult (T : Type) : Type := mkResult {
  data : list T;
  errors : list ParseError
}.
Arguments mkResult {T} _ _.
Arguments data {T} _.
Arguments errors {T} _.

(** A typed cell: dynamic typing yields booleans, numbers (kept as the numeral
    that was read), dates, strings and null. *)
Inductive cell : Type :=
| Null
| Str (s : string)
| Num (numeral : string)
| Bool (b : bool)
| Date (iso : string).

(** A field of a row object: a cell, or the array collected under
    [__parsed_extra] for the cells beyond the header. *)
Inductive value : Type :=
| Cell (c : cell)
| Extra (cs : list cell).

Abbreviation record := (gmap string value).

Definition parsed_extra : string := "__parsed_extra".

(** The name that reaches the prototype accessor of an object. *)
Definition proto : string := "__proto__".

Section Parser.

Variable tokenize : string → list (list string) * list ParseError.
Variable testFloat : string → bool.
Variable isoDate : string → bool.

(** [skipEmptyLines: true]: a line is empty when it is one cell of length 0. *)
Definition testEmptyLine (s : RawRow) : bool :=
  match s with
  | [c] => bool_decide (String.length c = 0%nat)
  | _ => false
  end.

Definition rows (content : string) : list RawRow :=
  List.filter (λ r, negb (testEmptyLine r)) (tokenize content).1.

(** [Papa.parse(content, { header: false, skipEmptyLines: true, ... })] *)
Definition parse_raw (content : string) : ParseResult RawRow :=
  mkResult (rows content) (tokenize content).2.

(** [parseDynamic] under [dynamicTyping: true].  A null left by [transform]
    matches none of the tests and is returned as it is. *)
Definition parseDynamic (v : option string) : cell :=
  match v with
  | None => Null
  | Some s =>
      if bool_decide (s = "true" ∨ s = "TRUE") then Bool true
      else if bool_decide (s = "false" ∨ s = "FALSE") then Bool false
      else if testFloat s then Num s
      else if isoDate s then Date s
      else if bool_decide (s = "") then Null else Str s
  end.

Definition field_of (fields : list string) (j : nat) : string :=
  default parsed_extra (fields !! j).

(** [row[field] = value], or a push onto the [__parsed_extra] array.  The row
    starts as an object literal: an assignment to [__proto__] goes to the
    accessor the row inherits, which replaces the prototype or does nothing,
    and the row gets no field of that name.  With distinct column names a row
    meets at most one such assignment. *)
Definition store (row : record) (field : string) (c : cell) : record :=
  if bool_decide (field = parsed_extra)
  then <[field := Extra (match row !! field with
                         | Some (Extra cs) => cs
                         | _ => []
                         end ++ [c])]> row
  else if bool_decide (field = proto) then row
  else <[field := Cell c]> row.

Fixpoint fill (fields : list string) (transform : string → option string)
    (j : nat) (rowSource : RawRow) (row : record) : record :=
  match rowSource with
  | [] => row
  | v :: rest =>
      fill fields transform (S j) rest
        (store row (field_of fields j) (parseDynamic (transform v)))
  end.

Definition processRow (fields : list string) (transform : string → option string)
    (i : nat) (rowSource : RawRow) : gmap string value * list ParseError :=
  let j := length rowSource in
  (fill fields transform 0 rowSource ∅,
   if bool_decide (length fields < j)%nat
   then [mkError "FieldMismatch" "TooManyFields" i]
   else if bool_decide (j < length fields)%nat
   then [mkError "FieldMismatch" "TooFewFields" i]
   else []).

(** [Papa.parse(content, { header: true, skipEmptyLines: true,
    dynamicTyping: true, transform, ... })] *)
Definition parse_header (transform : string → option string) (content : string)
    : ParseResult (gmap string value) :=
  match rows content with
  | [] => mkResult [] (tokenize content).2
  | fields :: body =>
      let processed := imap (processRow fields transform) body in
      mkResult processed.*1 ((tokenize content).2 ++ concat processed.*2)
  end.

End Parser.

End Papa.

Import Papa.

(** ** The process: events, outcomes and a small monad for them *)

Inductive msg : Type :=
| MissingEnv
| FileNotFound (filePath : string)
| UpsertingFrom (filePath tableName : string)
| UsingKey (uniqueKey : string)
| CsvStructure
| ExpectedColumns (n : nat)
| TotalRows (n : nat)
| ValidRows (n : nat)
| InvalidRows (n : nat)
| SampleHeading
| RowHeading (rowIndex : nat)
| DetailedHeading
| ActualColumns (n : nat)
| ExtraColumn (position : nat) (value : string)
| Column (position : nat) (header value : string)
| RawRowHeading
| RawRowData (line : string)
| WouldYouLike
| OptionContinue
| OptionAbort
| NoValidData
| FoundRecords (n : nat)
| BatchError (currentBatch : Js.num) (error : string)
| ProcessedBatch (currentBatch totalBatches : Js.num)
| Summary (successCount total : nat)
| ProcessingError (message : string).

Inductive event : Type :=
| Stdout (m : msg)
| Stderr (m : msg)
| ExistsSync (filePath : string)
| ReadFileSync (filePath : string)
| Upsert (tableName : string) (batch : list record) (onConflict : string)
    (error : option string).

(** How a computation ends: with a value, with a thrown exception, with
    [process.exit(status)], or not at all within the steps it was given. *)
Inductive res (A : Type) : Type :=
| Val (a : A)
| Throw (message : string)
| Halt (status : nat)
| Diverge.
Arguments Val {A} _.
Arguments Throw {A} _.
Arguments Halt {A} _.
Arguments Diverge {A}.

Definition M (A : Type) : Type := list event * res A.

Definition ret {A} (a : A) : M A := ([], Val a).

Definition bind {A B} (m : M A) (f : A → M B) : M B :=
  match m.2 with
  | Val a => let r := f a in (m.1 ++ r.1, r.2)
  | Throw e => (m.1, Throw e)
  | Halt n => (m.1, Halt n)
  | Diverge => (m.1, Diverge)
  end.

Notation "'let*' x ':=' m 'in' k" := (bind m (λ x, k))
  (at level 10, x name, m at level 100, k at level 200).
Notation "m ';;' k" := (bind m (λ _, k))
  (at level 100, k at level 200, right associativity).

Definition emit (e : event) : M unit := ([e], Val tt).
Definition log (m : msg) : M unit := emit (Stdout m).
Definition error (m : msg) : M unit := emit (Stderr m).
Definition throw {A} (message : string) : M A := ([], Throw message).
Definition process_exit {A} (status : nat) : M A := ([], Halt status).

(** [try { m } catch (error) { h error }] *)
Definition try_catch {A} (m : M A) (h : string → M A) : M A :=
  match m.2 with
  | Throw e => let r := h e in (m.1 ++ r.1, r.2)
  | _ => m
  end.

Fixpoint for_each {A} (l : list A) (body : A → M unit) : M unit :=
  match l with
  | [] => ret tt
  | x :: l' => body x ;; for_each l' body
  end.

(** The exit status of the process once the action has run: [process.exit]
    gives its argument, a normal return lets node end with status 0, and an
    exception nobody catches ends it with status 1. *)
Definition exit_status {A} (r : res A) : option nat :=
  match r with
  | Val _ => Some 0%nat
  | Halt n => Some n
  | Throw _ => Some 1%nat
  | Diverge => None
  end.

(** The batches handed to the remote service, in call order. *)
Definition upsert_calls (t : list event) : list (list record) :=
  omap (λ e, match e with Upsert _ batch _ _ => Some batch | _ => None end) t.

Definition upsert_errors (t : list event) : list (option string) :=
  omap (λ e, match e with Upsert _ _ _ err => Some err | _ => None end) t.

Definition is_file_io (e : event) : bool :=
  match e with
  | ExistsSync _ | ReadFileSync _ => true
  | _ => false
  end.

(** ** The file system *)

Inductive fnode : Type :=
| Unreadable
| File (content : string).

Abbreviation FS := (string → option fnode).

Definition existsSync (fs : FS) (filePath : string) : M bool :=
  emit (ExistsSync filePath) ;; ret (bool_decide (is_Some (fs filePath))).

Definition readFileSync (fs : FS) (filePath : string) : M string :=
  emit (ReadFileSync filePath) ;;
  match fs filePath with
  | Some (File content) => ret content
  | _ => throw (String.append "cannot read " filePath)
  end.

(** ** The program *)

Record Config : Type := mkConfig {
  supabaseUrl : string;
  supabaseKey : string;
  tableName : string;
  uniqueKey : string;
  batchSize : Js.num
}.

Record Env : Type := mkEnv {
  SUPABASE_URL : option string;
  SUPABASE_KEY : option string
}.

Record Options : Type := mkOptions {
  opt_table : string;
  opt_id : string;
  opt_batch : string
}.

(** [transform: (value) => value === '' ? null : value] *)
Definition transform (value : string) : option string :=
  if bool_decide (value = "") then None else Some value.

Definition dquote : ascii := ascii_of_nat 34.

(** Line feed and carriage return, the line terminators a byte can be. *)
Definition line_terminator (c : ascii) : bool :=
  bool_decide (nat_of_ascii c = 10 ∨ nat_of_ascii c = 13)%nat.

(** The line terminators the dot of a regular expression refuses: line feed,
    carriage return, U+2028 and U+2029.  A string holds its text as UTF-8,
    where the last two are the bytes 226 128 168 and 226 128 169. *)
Fixpoint has_line_terminator (l : list ascii) : bool :=
  match l with
  | [] => false
  | c :: rest =>
      line_terminator c
      || match rest with
         | c2 :: c3 :: _ =>
             bool_decide (nat_of_ascii c = 226 ∧ nat_of_ascii c2 = 128 ∧
                          (nat_of_ascii c3 = 168 ∨ nat_of_ascii c3 = 169))%nat
         | _ => false
         end
      || has_line_terminator rest
  end.

(** The regular-expression replace of the column report: a value that is one
    line enclosed in a pair of double quotes loses the pair. *)
Definition stripQuotes (s : string) : string :=
  match list_ascii_of_string s with
  | c :: rest =>
      if bool_decide (c = dquote ∧ last rest = Some dquote)
         && negb (has_line_terminator (removelast rest))
      then string_of_list_ascii (removelast rest)
      else s
  | [] => s
  end.

(** One line of the per-column comparison of a problem row. *)
Definition columnLine (headers row : RawRow) (i : nat) : msg :=
  let header :=
    if Js.truthy (headers !! i) then stripQuotes (default "" (headers !! i))
    else "EXTRA" in
  let value :=
    if Js.truthy (row !! i) then stripQuotes (default "" (row !! i))
    else "(empty)" in
  if bool_decide (length headers ≤ i)%nat
  then ExtraColumn (S i) value
  else Column (S i) header value.

Record Analysis : Type := mkAnalysis {
  validRows : nat;
  invalidRows : nat;
  problemRows : list nat
}.

(** The validation loop of [analyzeErrors], from row [i] on. *)
Fixpoint validate (headers : RawRow) (i : nat) (rest : list RawRow)
    (a : Analysis) : Analysis :=
  match rest with
  | [] => a
  | row :: rest' =>
      validate headers (S i) rest'
        (if bool_decide (length row = length headers)
         then mkAnalysis (S (validRows a)) (invalidRows a) (problemRows a)
         else mkAnalysis (validRows a) (S (invalidRows a))
                (if bool_decide (length (problemRows a) < 3)%nat
                 then problemRows a ++ [i]
                 else problemRows a))
  end.

Definition validateRows (headers : RawRow) (rows : list RawRow) : Analysis :=
  validate headers 1 (drop 1 rows) (mkAnalysis 0 0 []).

(** The structural analysis of a tokenized file: row 0 is the header, and
    there is nothing to compare with when the file has no row at all. *)
Definition analyze (rows : list RawRow) : option Analysis :=
  match rows with
  | [] => None
  | headers :: _ => Some (validateRows headers rows)
  end.

Definition showProblemRow (headers : RawRow) (rows : list RawRow)
    (rowIndex : nat) : M unit :=
  let row := rows !! rowIndex in
  log (RowHeading rowIndex) ;;
  log DetailedHeading ;;
  log (ExpectedColumns (length headers)) ;;
  match row with
  | None => throw "Cannot read properties of undefined (reading 'length')"
  | Some row =>
      log (ActualColumns (length row)) ;;
      for_each (seq 0 (Nat.max (length headers) (length row)))
        (λ i, log (columnLine headers row i)) ;;
      log RawRowHeading ;;
      log (RawRowData (String.concat "," row))
  end.

(** ** A small instance of the parameters

    A tokenizer without quoting (lines split at line feeds, cells at commas; a
    line that holds a double quote is reported as a quoting error), a numeral
    test for digit strings, and a remote service that counts the calls it
    receives and fails the ones listed. *)

Module Demo.

Fixpoint split_at (sep : ascii) (s : string) (cur : string) : list string :=
  match s with
  | EmptyString => [cur]
  | String c r =>
      if bool_decide (c = sep) then cur :: split_at sep r ""
      else split_at sep r (String.append cur (String c ""))
  end.

Definition newline : string := String (ascii_of_nat 10) "".

(** U+2028, as UTF-8. *)
Definition line_separator : string :=
  String (ascii_of_nat 226) (String (ascii_of_nat 128)
    (String (ascii_of_nat 168) "")).

Definition in_quotes (s : string) : string :=
  String dquote (String.append s (String dquote "")).

Definition lines (s : string) : list string := split_at (ascii_of_nat 10) s "".

Definition has_quote (s : string) : bool :=
  existsb (λ c, bool_decide (c = ascii_of_nat 34)) (list_ascii_of_string s).

Definition tokenize (content : string) : list (list string) * list ParseError :=
  (map (λ l, split_at "," l "") (lines content),
   omap (λ '(i, l), if has_quote l then Some (mkError "Quotes" "InvalidQuotes" i)
                    else None)
     (imap pair (lines content))).

Definition testFloat (s : string) : bool :=
  match list_ascii_of_string s with
  | [] => false
  | cs => forallb (λ c, bool_decide (48 ≤ nat_of_ascii c ≤ 57)%nat) cs
  end.

Definition isoDate (s : string) : bool := false.

Definition resolve (file : string) : string := String.append "/cwd/" file.

Definition createClient (url key : string) : option nat := Some 0%nat.

Definition upsert (failing : list nat) (calls : nat) (table : string)
    (batch : list record) (onConflict : string) : nat * option string :=
  (S calls, if bool_decide (calls ∈ failing) then Some "rejected" else None).

Definition fs (filePath content : string) : FS :=
  λ p, if bool_decide (p = filePath) then Some (File content) else None.

Definition env : Env := mkEnv (Some "https://db.example") (Some "secret").

Definition file_of (ls : list string) : string := String.concat newline ls.

Definition csv : string := "/cwd/data.csv".

Definition options (batch : string) : Options :=
  mkOptions "contacts" "email" batch.

Definition short_row : list string := ["a,b,c"; "1,2"].
Definition header_only : list string := ["a,b,c"].
Definition two_records : list string :=
  ["email,name"; "a@x.com,Alice"; "b@x.com,Bob"].
Definition many : list string := "id" :: replicate 125 "x".
Definition quoted : list string :=
  ["a,b"; String.append "1," (String (ascii_of_nat 34) "x")].

End Demo.

Section Program.

Variable tokenize : string → list (list string) * list ParseError.
Variable testFloat : string → bool.
Variable isoDate : string → bool.
(** [path.resolve(process.cwd(), file)] *)
Variable resolve : string → string.
(** The remote service behind the client: [createClient] may throw, and an
    upsert call answers with an error or with none. *)
Variable Remote : Type.
Variable createClient : string → string → option Remote.
Variable upsert :
  Remote → string → list record → string → Remote * option string.

(** [analyzeErrors(errors, data, filePath)]: the two arrays are those of the
    parse result of [upsertCsv], and the [errors] one may be emptied in place;
    so the function is given the parse result and returns it as it leaves
    it. *)
Definition analyzeErrors (fs : FS) (parseResult : ParseResult record)
    (filePath : string) : M (ParseResult record) :=
  let* fileContent := readFileSync fs filePath in
  let fullParseResult := parse_raw tokenize fileContent in
  match data fullParseResult with
  | [] =>
      log CsvStructure ;;
      throw "Cannot read properties of undefined (reading 'length')"
  | headers :: _ =>
      log CsvStructure ;;
      log (ExpectedColumns (length headers)) ;;
      log (TotalRows (length (data fullParseResult))) ;;
      let a := validateRows headers (data fullParseResult) in
      log (ValidRows (validRows a)) ;;
      (if bool_decide (0 < invalidRows a)%nat
       then
         log (InvalidRows (invalidRows a)) ;;
         log SampleHeading ;;
         for_each (problemRows a)
           (showProblemRow headers (data fullParseResult))
       else ret tt) ;;
      if bool_decide (invalidRows a = 0%nat)
      then ret (mkResult (data parseResult) [])
      else ret parseResult
  end.

(** The batching loop, from index [i] on.  [fuel] bounds the number of
    iterations the model follows. *)
Fixpoint batchLoop (fuel : nat) (config : Config) (records : list record)
    (i : Js.num) (successCount : nat) (remote : Remote) : M nat :=
  match fuel with
  | O => ([], Diverge)
  | S fuel' =>
      if Js.lt i (Js.Fin (Z.of_nat (length records)))
      then
        let batch := Js.slice records i (Js.add i (batchSize config)) in
        let currentBatch :=
          Js.add (Js.floor_div i (batchSize config)) (Js.Fin 1) in
        let totalBatches :=
          Js.ceil_div (Js.Fin (Z.of_nat (length records))) (batchSize config) in
        let answer := upsert remote (tableName config) batch (uniqueKey config) in
        let remote' := answer.1 in
        let err := answer.2 in
        emit (Upsert (tableName config) batch (uniqueKey config) err) ;;
        let* successCount' :=
          match err with
          | Some e => error (BatchError currentBatch e) ;; ret successCount
          | None =>
              log (ProcessedBatch currentBatch totalBatches) ;;
              ret (successCount + length batch)%nat
          end in
        batchLoop fuel' config records (Js.add i (batchSize config))
          successCount' remote'
      else ret successCount
  end.

Definition upsertCsv (fuel : nat) (fs : FS) (filePath : string)
    (config : Config) : M unit :=
  try_catch
    (match createClient (supabaseUrl config) (supabaseKey config) with
     | None => throw "createClient failed"
     | Some supabase =>
         let* csvFile := readFileSync fs filePath in
         let parseResult := parse_header tokenize testFloat isoDate transform csvFile in
         let* parseResult := analyzeErrors fs parseResult filePath in
         if bool_decide (0 < length (errors parseResult))%nat
         then
           log WouldYouLike ;;
           log OptionContinue ;;
           log OptionAbort ;;
           process_exit 1
         else if bool_decide (length (data parseResult) = 0%nat)
         then error NoValidData ;; ret tt
         else
           log (FoundRecords (length (data parseResult))) ;;
           let* successCount :=
             batchLoop fuel config (data parseResult) (Js.Fin 0) 0 supabase in
           log (Summary successCount (length (data parseResult)))
     end)
    (λ message, error (ProcessingError message) ;; process_exit 1).

(** The commander action. *)
Definition action (fuel : nat) (env : Env) (fs : FS) (file : string)
    (options : Options) : M unit :=
  let supabaseUrl := SUPABASE_URL env in
  let supabaseKey := SUPABASE_KEY env in
  (if negb (Js.truthy supabaseUrl) || negb (Js.truthy supabaseKey)
   then error MissingEnv ;; process_exit 1
   else ret tt) ;;
  let config :=
    mkConfig (default "" supabaseUrl) (default "" supabaseKey)
      (opt_table options) (opt_id options) (Js.parseInt (opt_batch options)) in
  let filePath := resolve file in
  let* found := existsSync fs filePath in
  (if found : bool then ret tt
   else error (FileNotFound filePath) ;; process_exit 1) ;;
  log (UpsertingFrom filePath (tableName config)) ;;
  log (UsingKey (uniqueKey config)) ;;
  upsertCsv fuel fs filePath config.

(** ** Specification-side definitions

    What the properties below speak of, written without the loops: the
    rows that disagree with the header, the partition into batches, and the
    service calls a list of batches causes. *)

(** Indices of the data rows (row 0 is the header) whose cell count differs
    from the header's, in increasing order. *)
Definition mismatched (headers : RawRow) (rows : list RawRow) : list nat :=
  List.filter
    (λ i, match rows !! i with
          | Some row => negb (bool_decide (length row = length headers))
          | None => false
          end)
    (seq 1 (length rows - 1)).

(** [ceil(n / b)] batches; batch [k] holds the positions from [k * b] up to
    [k * b + b], as far as they exist. *)
Definition batch_count (n : nat) (b : Z) : nat :=
  Z.to_nat (Js.ceil_quot (Z.of_nat n) b).

Definition batch_at {A} (b : Z) (l : list A) (k : nat) : list A :=
  take (Z.to_nat b) (drop (k * Z.to_nat b) l).

Definition batches {A} (b : Z) (l : list A) : list (list A) :=
  map (batch_at b l) (seq 0 (batch_count (length l) b)).

(** One upsert call per batch, in order, each made once whatever it answers;
    a batch counts towards the success total when the call reports no error. *)
Fixpoint runBatches (config : Config) (total : Js.num) (k : nat)
    (bs : list (list record)) (successCount : nat) (remote : Remote)
    : list event * nat :=
  match bs with
  | [] => ([], successCount)
  | batch :: bs' =>
      let answer := upsert remote (tableName config) batch (uniqueKey config) in
      let current := Js.Fin (Z.of_nat k + 1) in
      let later :=
        runBatches config total (S k) bs'
          (match answer.2 with
           | Some _ => successCount
           | None => (successCount + length batch)%nat
           end) answer.1 in
      (Upsert (tableName config) batch (uniqueKey config) answer.2
         :: match answer.2 with
            | Some e => Stderr (BatchError current e)
            | None => Stdout (ProcessedBatch current total)
            end
         :: later.1,
       later.2)
  end.

(** The sizes of the batches the service accepted. *)
Fixpoint accepted (calls : list (list record)) (answers : list (option string))
    : list nat :=
  match calls, answers with
  | batch :: calls', None :: answers' => length batch :: accepted calls' answers'
  | _ :: calls', Some _ :: answers' => accepted calls' answers'
  | _, _ => []
  end.

(** The rows whose detailed report was printed. *)
Definition reported_rows (t : list event) : list nat :=
  omap (λ e, match e with Stdout (RowHeading i) => Some i | _ => None end) t.

(** The run gets as far as parsing [content]: both credentials are set, the
    file is there and readable, and the client can be built. *)
Definition ready (env : Env) (fs : FS) (file content : string) : Prop :=
  Js.truthy (SUPABASE_URL env) = true ∧
  Js.truthy (SUPABASE_KEY env) = true ∧
  fs (resolve file) = Some (File content) ∧
  is_Some (createClient (default "" (SUPABASE_URL env))
             (default "" (SUPABASE_KEY env))).

(** The same indices, met while walking the data rows from index [i] on. *)
Fixpoint mismatched_from (headers : RawRow) (i : nat) (rest : list RawRow)
    : list nat :=
  match rest with
  | [] => []
  | row :: rest' =>
      if bool_decide (length row = length headers)
      then mismatched_from headers (S i) rest'
      else i :: mismatched_from headers (S i) rest'
  end.

(** What the analysis prints about one problem row, and in all. *)
Definition rowReport (headers row : RawRow) (rowIndex : nat) : list msg :=
  [RowHeading rowIndex; DetailedHeading; ExpectedColumns (length headers);
   ActualColumns (length row)]
  ++ map (columnLine headers row)
       (seq 0 (Nat.max (length headers) (length row)))
  ++ [RawRowHeading; RawRowData (String.concat "," row)].

Definition analysisReport (headers : RawRow) (rows : list RawRow) : list msg :=
  let a := validateRows headers rows in
  [CsvStructure; ExpectedColumns (length headers); TotalRows (length rows);
   ValidRows (validRows a)]
  ++ (if bool_decide (0 < invalidRows a)%nat
      then [InvalidRows (invalidRows a); SampleHeading]
           ++ concat (map (λ i, rowReport headers (default [] (rows !! i)) i)
                        (problemRows a))
      else []).

(** The configuration the action builds, and what it prints and looks up
    before it calls [upsertCsv]. *)
Definition configOf (env : Env) (options : Options) : Config :=
  mkConfig (default "" (SUPABASE_URL env)) (default "" (SUPABASE_KEY env))
    (opt_table options) (opt_id options) (Js.parseInt (opt_batch options)).

Definition preamble (file : string) (options : Options) : list event :=
  [ExistsSync (resolve file);
   Stdout (UpsertingFrom (resolve file) (opt_table options));
   Stdout (UsingKey (opt_id options))].





(** * Properties *)

(** ** Arithmetic of the batch count *)

Lemma ceil_quot_bounds (n b : Z) :
  1 ≤ b → 0 ≤ n →
  let N := Js.ceil_quot n b in
  0 ≤ N ∧ n ≤ N * b ∧ (0 < n → (N - 1) * b < n) ∧ (n = 0 → N = 0).
Proof.
  intros Hb Hn. unfold Js.ceil_quot. cbv zeta.
  pose proof (Z.div_mod (- n) b ltac:(lia)) as Hdm.
  pose proof (Z.mod_pos_bound (- n) b ltac:(lia)) as Hr.
  repeat split; nia.
Qed.

Lemma batch_count_lt (n : nat) (b : Z) (k : nat) :
  1 ≤ b → (k < batch_count n b)%nat → Z.of_nat k * b < Z.of_nat n.
Proof.
  intros Hb Hk. unfold batch_count in Hk.
  destruct (ceil_quot_bounds (Z.of_nat n) b Hb ltac:(lia)) as (H0 & H1 & H2 & H3).
  destruct (decide (Z.of_nat n = 0)) as [Hz|Hz].
  - rewrite (H3 Hz) in Hk. simpl in Hk. lia.
  - specialize (H2 ltac:(lia)). nia.
Qed.

Lemma batch_count_ge (n : nat) (b : Z) :
  1 ≤ b → Z.of_nat n ≤ Z.of_nat (batch_count n b) * b.
Proof.
  intros Hb. unfold batch_count.
  destruct (ceil_quot_bounds (Z.of_nat n) b Hb ltac:(lia)) as (H0 & H1 & _).
  rewrite Z2Nat.id by lia. exact H1.
Qed.

Lemma batch_count_le (n : nat) (b : Z) : 1 ≤ b → (batch_count n b ≤ n)%nat.
Proof.
  intros Hb. unfold batch_count.
  destruct (ceil_quot_bounds (Z.of_nat n) b Hb ltac:(lia)) as (H0 & H1 & H2 & H3).
  destruct (decide (Z.of_nat n = 0)) as [Hz|Hz].
  - rewrite (H3 Hz). simpl. lia.
  - specialize (H2 ltac:(lia)). nia.
Qed.

(** ** The partition into batches *)

Section Batches.

Context {A : Type}.
Implicit Types (l : list A) (b : Z).

Lemma slice_batch l b (k : nat) :
  1 ≤ b →
  Js.slice l (Js.Fin (Z.of_nat k * b)) (Js.add (Js.Fin (Z.of_nat k * b)) (Js.Fin b))
  = batch_at b l k.
Proof.
  intros Hb. unfold Js.slice, batch_at, Js.add, Js.rel_index.
  rewrite !bool_decide_eq_false_2 by nia.
  destruct (decide (Z.of_nat k * b ≤ Z.of_nat (length l))) as [Hle|Hgt].
  - replace (Z.to_nat (Z.min (Z.of_nat k * b) (Z.of_nat (length l))))
      with (k * Z.to_nat b)%nat by nia.
    destruct (decide (Z.of_nat k * b + b ≤ Z.of_nat (length l))) as [Hfull|Hpart].
    + f_equal. lia.
    + rewrite !take_ge; [done | rewrite length_drop; nia ..].
  - rewrite !drop_ge by nia. by rewrite !take_nil.
Qed.

Lemma concat_batches_from l b (m k : nat) :
  1 ≤ b → (k + m = batch_count (length l) b)%nat →
  concat (map (batch_at b l) (seq k m)) = drop (k * Z.to_nat b) l.
Proof.
  intros Hb. revert k. induction m as [|m IH]; intros k Hk.
  - simpl. rewrite drop_ge; [done|].
    pose proof (batch_count_ge (length l) b Hb). nia.
  - simpl. rewrite IH by lia. unfold batch_at.
    replace (S k * Z.to_nat b)%nat with (k * Z.to_nat b + Z.to_nat b)%nat by lia.
    rewrite <- drop_drop. apply take_drop.
Qed.

Lemma concat_batches l b : 1 ≤ b → concat (batches b l) = l.
Proof.
  intros Hb. unfold batches. rewrite concat_batches_from by (done || lia).
  done.
Qed.

Lemma length_batches l b : length (batches b l) = batch_count (length l) b.
Proof. unfold batches. by rewrite length_map, length_seq. Qed.

Lemma lookup_batches l b (k : nat) :
  (k < batch_count (length l) b)%nat → batches b l !! k = Some (batch_at b l k).
Proof.
  intros Hk. unfold batches. rewrite list_lookup_fmap, lookup_seq_lt by done.
  done.
Qed.

Lemma length_batch_at l b (k : nat) :
  1 ≤ b →
  length (batch_at b l k) = (Z.to_nat b `min` (length l - k * Z.to_nat b))%nat.
Proof. intros Hb. unfold batch_at. by rewrite length_take, length_drop. Qed.

Lemma length_batch_full l b (k : nat) :
  1 ≤ b → (S k < batch_count (length l) b)%nat →
  Z.of_nat (length (batch_at b l k)) = b.
Proof.
  intros Hb Hk. rewrite length_batch_at by done.
  pose proof (batch_count_lt (length l) b (S k) Hb Hk). nia.
Qed.

Lemma length_batch_last l b (k : nat) :
  1 ≤ b → (S k = batch_count (length l) b)%nat →
  1 ≤ Z.of_nat (length (batch_at b l k)) ≤ b.
Proof.
  intros Hb Hk. rewrite length_batch_at by done.
  pose proof (batch_count_lt (length l) b k Hb ltac:(lia)). nia.
Qed.

End Batches.

(** ** The monad *)

Lemma bind_emit {B} (e : event) (k : unit → M B) :
  bind (emit e) k = (e :: (k tt).1, (k tt).2).
Proof. reflexivity. Qed.

Lemma bind_log {B} (m : msg) (k : unit → M B) :
  bind (log m) k = (Stdout m :: (k tt).1, (k tt).2).
Proof. reflexivity. Qed.

Lemma bind_error {B} (m : msg) (k : unit → M B) :
  bind (error m) k = (Stderr m :: (k tt).1, (k tt).2).
Proof. reflexivity. Qed.

Lemma bind_ret {A B} (a : A) (k : A → M B) : bind (ret a) k = k a.
Proof. unfold bind, ret. simpl. by destruct (k a). Qed.

Lemma bind_val {A B} (m : M A) (k : A → M B) (a : A) :
  m.2 = Val a → bind m k = (m.1 ++ (k a).1, (k a).2).
Proof. intros H. unfold bind. by rewrite H. Qed.

Lemma upsert_calls_app (t u : list event) :
  upsert_calls (t ++ u) = upsert_calls t ++ upsert_calls u.
Proof. apply omap_app. Qed.

Lemma upsert_errors_app (t u : list event) :
  upsert_errors (t ++ u) = upsert_errors t ++ upsert_errors u.
Proof. apply omap_app. Qed.

Lemma reported_rows_app (t u : list event) :
  reported_rows (t ++ u) = reported_rows t ++ reported_rows u.
Proof. apply omap_app. Qed.

(** ** The batching loop *)

Section Loop.

Variables (config : Config) (records : list record) (b : Z).
Hypothesis batchSize_b : batchSize config = Js.Fin b.
Hypothesis b_pos : 1 ≤ b.

Let total : Js.num :=
  Js.ceil_div (Js.Fin (Z.of_nat (length records))) (batchSize config).

Lemma loop_next (k : nat) :
  Js.add (Js.Fin (Z.of_nat k * b)) (Js.Fin b) = Js.Fin (Z.of_nat (S k) * b).
Proof. simpl. f_equal. lia. Qed.

Lemma loop_current (k : nat) :
  Js.add (Js.floor_div (Js.Fin (Z.of_nat k * b)) (Js.Fin b)) (Js.Fin 1)
  = Js.Fin (Z.of_nat k + 1).
Proof.
  unfold Js.floor_div, Js.div_rounded.
  rewrite bool_decide_eq_false_2 by lia.
  rewrite Z.div_mul by lia. done.
Qed.

Lemma loop_test (k : nat) :
  Js.lt (Js.Fin (Z.of_nat k * b)) (Js.Fin (Z.of_nat (length records)))
  = bool_decide (k < batch_count (length records) b)%nat.
Proof.
  unfold Js.lt. apply bool_decide_ext. split; intros H.
  - destruct (decide (k < batch_count (length records) b)%nat); [done|].
    pose proof (batch_count_ge (length records) b b_pos). nia.
  - by apply batch_count_lt.
Qed.

Lemma batchLoop_run (m k fuel successCount : nat) (remote : Remote) :
  (k + m = batch_count (length records) b)%nat → (m < fuel)%nat →
  batchLoop fuel config records (Js.Fin (Z.of_nat k * b)) successCount remote
  = let r := runBatches config total k (map (batch_at b records) (seq k m))
               successCount remote in
    (r.1, Val r.2).
Proof.
  revert k fuel successCount remote.
  induction m as [|m IH]; intros k fuel successCount remote Hk Hfuel;
    (destruct fuel as [|fuel]; [lia|]); cbn [batchLoop]; rewrite loop_test.
  - rewrite bool_decide_eq_false_2 by lia. done.
  - rewrite bool_decide_eq_true_2 by lia.
    fold total. rewrite batchSize_b, slice_batch, loop_next, loop_current by done.
    cbn [seq map runBatches]. cbv zeta. rewrite bind_emit.
    destruct (upsert remote (tableName config) (batch_at b records k)
                (uniqueKey config)) as [remote' [e|]]; cbn [fst snd].
    + unfold error, emit, ret, bind. cbn [fst snd app].
      rewrite IH by lia. done.
    + unfold log, emit, ret, bind. cbn [fst snd app].
      rewrite IH by lia. done.
Qed.

Lemma batchLoop_short (m k fuel successCount : nat) (remote : Remote) :
  (k + m = batch_count (length records) b)%nat → (fuel ≤ m)%nat →
  (batchLoop fuel config records (Js.Fin (Z.of_nat k * b)) successCount remote).2
  = Diverge.
Proof.
  revert k m successCount remote.
  induction fuel as [|fuel IH]; intros k m successCount remote Hk Hfuel; [done|].
  destruct m as [|m]; [lia|]. cbn [batchLoop]. rewrite loop_test.
  rewrite bool_decide_eq_true_2 by lia.
  rewrite batchSize_b, loop_next. cbv zeta. rewrite bind_emit. cbn [snd].
  destruct (upsert remote _ _ _).2 as [e|].
  - rewrite (bind_val _ _ successCount) by reflexivity. cbn [snd].
    apply (IH (S k) m); lia.
  - rewrite (bind_val _ _ (successCount + length (Js.slice records
      (Js.Fin (Z.of_nat k * b)) (Js.Fin (Z.of_nat (S k) * b))))%nat)
      by reflexivity.
    cbn [snd]. apply (IH (S k) m); lia.
Qed.

End Loop.

Lemma upsert_calls_cons (e : event) (t : list event) :
  upsert_calls (e :: t)
  = match e with
    | Upsert _ batch _ _ => batch :: upsert_calls t
    | _ => upsert_calls t
    end.
Proof. by destruct e. Qed.

Lemma upsert_errors_cons (e : event) (t : list event) :
  upsert_errors (e :: t)
  = match e with
    | Upsert _ _ _ err => err :: upsert_errors t
    | _ => upsert_errors t
    end.
Proof. by destruct e. Qed.

Lemma reported_rows_cons (e : event) (t : list event) :
  reported_rows (e :: t)
  = match e with
    | Stdout (RowHeading i) => i :: reported_rows t
    | _ => reported_rows t
    end.
Proof. destruct e as [[]| | | |]; done. Qed.

(** ** What a list of batches causes *)

Lemma runBatches_calls (config : Config) (total : Js.num)
    (bs : list (list record)) (k sc : nat) (remote : Remote) :
  upsert_calls (runBatches config total k bs sc remote).1 = bs.
Proof.
  revert k sc remote. induction bs as [|batch bs IH]; intros k sc remote; [done|].
  cbn [runBatches fst]. rewrite !upsert_calls_cons.
  destruct (upsert remote _ _ _).2; by rewrite IH.
Qed.

Lemma runBatches_answers (config : Config) (total : Js.num)
    (bs : list (list record)) (k sc : nat) (remote : Remote) :
  length (upsert_errors (runBatches config total k bs sc remote).1) = length bs.
Proof.
  revert k sc remote. induction bs as [|batch bs IH]; intros k sc remote; [done|].
  cbn [runBatches fst]. rewrite !upsert_errors_cons.
  destruct (upsert remote _ _ _).2; cbn [length]; by rewrite IH.
Qed.

Lemma runBatches_count (config : Config) (total : Js.num)
    (bs : list (list record)) (k sc : nat) (remote : Remote) :
  (runBatches config total k bs sc remote).2
  = (sc + sum_list (accepted bs
            (upsert_errors (runBatches config total k bs sc remote).1)))%nat.
Proof.
  revert k sc remote. induction bs as [|batch bs IH]; intros k sc remote.
  - simpl. lia.
  - cbn [runBatches fst snd]. rewrite !upsert_errors_cons.
    destruct (upsert remote _ _ _).2; cbn [accepted sum_list_with];
      rewrite IH; unfold id; lia.
Qed.

Lemma runBatches_reported (config : Config) (total : Js.num)
    (bs : list (list record)) (k sc : nat) (remote : Remote) :
  reported_rows (runBatches config total k bs sc remote).1 = [].
Proof.
  revert k sc remote. induction bs as [|batch bs IH]; intros k sc remote; [done|].
  cbn [runBatches fst]. rewrite !reported_rows_cons.
  destruct (upsert remote _ _ _).2; by rewrite IH.
Qed.

(** ** The validation loop *)

Lemma mismatched_from_filter (headers : RawRow) (pre rest : list RawRow) :
  mismatched_from headers (length pre) rest
  = List.filter
      (λ i, match (pre ++ rest) !! i with
            | Some row => negb (bool_decide (length row = length headers))
            | None => false
            end)
      (seq (length pre) (length rest)).
Proof.
  revert pre. induction rest as [|row rest IH]; intros pre; [done|].
  cbn [mismatched_from length seq List.filter].
  rewrite list_lookup_middle by done.
  specialize (IH (pre ++ [row])).
  rewrite length_app, <- app_assoc in IH. cbn [length app] in IH.
  replace (length pre + 1)%nat with (S (length pre)) in IH by lia.
  destruct (bool_decide (length row = length headers)); cbn [negb];
    by rewrite IH.
Qed.

Lemma mismatched_cons (headers : RawRow) (rest : list RawRow) :
  mismatched headers (headers :: rest) = mismatched_from headers 1 rest.
Proof.
  unfold mismatched. cbn [length]. rewrite Nat.sub_succ, Nat.sub_0_r.
  exact (eq_sym (mismatched_from_filter headers [headers] rest)).
Qed.

Lemma mismatched_from_bounds (headers : RawRow) (i : nat) (rest : list RawRow) :
  Forall (λ j, i ≤ j < i + length rest)%nat (mismatched_from headers i rest).
Proof.
  revert i. induction rest as [|row rest IH]; intros i; [constructor|].
  cbn [mismatched_from length].
  destruct (bool_decide _); [|constructor; [lia|]];
    (eapply Forall_impl; [apply IH|]); cbn beta; intros; lia.
Qed.

Lemma mismatched_from_length (headers : RawRow) (i : nat) (rest : list RawRow) :
  (length (mismatched_from headers i rest) ≤ length rest)%nat.
Proof.
  revert i. induction rest as [|row rest IH]; intros i; [done|].
  cbn [mismatched_from length]. specialize (IH (S i)).
  destruct (bool_decide _); cbn [length]; lia.
Qed.

Lemma validate_spec (headers : RawRow) (rest : list RawRow) (i : nat)
    (a : Analysis) :
  let P := mismatched_from headers i rest in
  validate headers i rest a
  = mkAnalysis (validRows a + (length rest - length P))
      (invalidRows a + length P)
      (problemRows a ++ take (3 - length (problemRows a)) P).
Proof.
  revert i a. induction rest as [|row rest IH]; intros i a.
  - destruct a. simpl. f_equal; [lia..|]. by rewrite take_nil, app_nil_r.
  - cbn [validate mismatched_from length]. cbv zeta in *. rewrite IH.
    pose proof (mismatched_from_length headers (S i) rest).
    destruct (bool_decide (length row = length headers)); cbn [validRows
      invalidRows problemRows length]; f_equal; try lia.
    destruct (decide (length (problemRows a) < 3)%nat) as [Hlt|Hge].
    + rewrite bool_decide_eq_true_2 by done.
      rewrite length_app. cbn [length]. rewrite <- app_assoc. cbn [app].
      replace (3 - length (problemRows a))%nat
        with (S (3 - (length (problemRows a) + 1)))%nat by lia.
      done.
    + rewrite bool_decide_eq_false_2 by done.
      replace (3 - length (problemRows a))%nat with 0%nat by lia. done.
Qed.

Lemma validateRows_spec (headers : RawRow) (rest : list RawRow) :
  let P := mismatched headers (headers :: rest) in
  validateRows headers (headers :: rest)
  = mkAnalysis (length rest - length P) (length P) (take 3 P).
Proof.
  cbv zeta. unfold validateRows. cbn [drop]. rewrite validate_spec.
  rewrite mismatched_cons. cbn [validRows invalidRows problemRows length app].
  done.
Qed.

(** ** The report of the analysis *)

Lemma for_each_val {A} (l : list A) (body : A → M unit) (tr : A → list event) :
  (∀ x, x ∈ l → body x = (tr x, Val tt)) →
  for_each l body = (concat (map tr l), Val tt).
Proof.
  induction l as [|x l IH]; intros Hbody; [done|].
  cbn [for_each map concat].
  rewrite (bind_val _ _ tt) by (rewrite Hbody; [done|left]).
  rewrite Hbody by left. cbn [fst].
  rewrite IH; [done|]. intros y Hy. apply Hbody. by right.
Qed.

Lemma for_each_log {A} (l : list A) (f : A → msg) :
  for_each l (λ x, log (f x)) = (map (λ x, Stdout (f x)) l, Val tt).
Proof.
  rewrite (for_each_val l _ (λ x, [Stdout (f x)])) by done.
  f_equal. induction l as [|x l IH]; [done|]. cbn [map concat app]. by rewrite IH.
Qed.

Lemma showProblemRow_run (headers : RawRow) (rows : list RawRow) (i : nat)
    (row : RawRow) :
  rows !! i = Some row →
  showProblemRow headers rows i = (map Stdout (rowReport headers row i), Val tt).
Proof.
  intros Hrow. unfold showProblemRow, rowReport. cbv zeta. rewrite Hrow.
  rewrite !bind_log. cbn [fst snd].
  rewrite (bind_val _ _ tt) by (by rewrite for_each_log).
  rewrite for_each_log. cbn [fst snd log emit].
  cbn [map app]. rewrite map_app, map_map. done.
Qed.

Lemma reported_rows_columns (headers row : RawRow) (l : list nat) (t : list event) :
  reported_rows (map Stdout (map (columnLine headers row) l) ++ t)
  = reported_rows t.
Proof.
  induction l as [|i l IH]; [done|]. cbn [map app].
  rewrite reported_rows_cons. unfold columnLine at 1.
  by destruct (bool_decide _).
Qed.

Lemma reported_rows_rowReport (headers row : RawRow) (i : nat) :
  reported_rows (map Stdout (rowReport headers row i)) = [i].
Proof.
  unfold rowReport. cbn [map app]. rewrite !reported_rows_cons.
  rewrite map_app, reported_rows_columns. done.
Qed.

Lemma upsert_calls_logs (ms : list msg) : upsert_calls (map Stdout ms) = [].
Proof. induction ms as [|m ms IH]; [done|]. cbn [map]. by rewrite upsert_calls_cons. Qed.

Lemma upsert_errors_logs (ms : list msg) : upsert_errors (map Stdout ms) = [].
Proof. induction ms as [|m ms IH]; [done|]. cbn [map]. by rewrite upsert_errors_cons. Qed.

Lemma reported_rows_reports (headers : RawRow) (rows : list RawRow)
    (l : list nat) :
  reported_rows
    (map Stdout (concat (map (λ i, rowReport headers (default [] (rows !! i)) i) l)))
  = l.
Proof.
  induction l as [|i l IH]; [done|]. cbn [map concat].
  rewrite map_app, reported_rows_app, reported_rows_rowReport, IH. done.
Qed.

Lemma reported_rows_analysis (headers : RawRow) (rows : list RawRow) :
  reported_rows (map Stdout (analysisReport headers rows))
  = if bool_decide (0 < invalidRows (validateRows headers rows))%nat
    then problemRows (validateRows headers rows)
    else [].
Proof.
  unfold analysisReport. cbv zeta. cbn [map app]. rewrite !reported_rows_cons.
  destruct (bool_decide _); [|done].
  cbn [map app]. rewrite !reported_rows_cons. apply reported_rows_reports.
Qed.

Lemma problemRows_in_range (headers : RawRow) (rest : list RawRow) (i : nat) :
  i ∈ problemRows (validateRows headers (headers :: rest)) →
  is_Some ((headers :: rest) !! i).
Proof.
  rewrite validateRows_spec. cbn [problemRows]. intros Hi.
  apply subseteq_take in Hi as Hi'. clear Hi.
  rewrite mismatched_cons in Hi'.
  pose proof (mismatched_from_bounds headers 1 rest) as HF.
  rewrite Forall_forall in HF. specialize (HF i Hi').
  apply lookup_lt_is_Some. cbn [length]. lia.
Qed.

Lemma analyzeErrors_run (fs : FS) (parseResult : ParseResult record)
    (filePath content : string) (headers : RawRow) (body : list RawRow) :
  fs filePath = Some (File content) →
  rows tokenize content = headers :: body →
  analyzeErrors fs parseResult filePath
  = (ReadFileSync filePath
       :: map Stdout (analysisReport headers (headers :: body)),
     Val (if bool_decide (invalidRows (validateRows headers (headers :: body)) = 0)%nat
          then mkResult (data parseResult) []
          else parseResult)).
Proof.
  intros Hfile Hrows. unfold analyzeErrors, readFileSync. rewrite Hfile.
  rewrite (bind_val _ _ content) by reflexivity.
  change ((emit (ReadFileSync filePath);; ret content).1)
    with [ReadFileSync filePath].
  unfold parse_raw. cbn [data]. rewrite Hrows.
  rewrite !bind_log. cbn [fst snd]. unfold analysisReport.
  cbv zeta. cbn [map app].
  set (a := validateRows headers (headers :: body)).
  assert (Hsamples :
    for_each (problemRows a) (showProblemRow headers (headers :: body))
    = (map Stdout (concat (map (λ i, rowReport headers
                                 (default [] ((headers :: body) !! i)) i)
                             (problemRows a))), Val tt)).
  { rewrite (for_each_val _ _ (λ i, map Stdout (rowReport headers
               (default [] ((headers :: body) !! i)) i))).
    - f_equal. induction (problemRows a) as [|i l IH]; [done|].
      cbn [map concat]. by rewrite map_app, IH.
    - intros i Hi. destruct (problemRows_in_range headers body i Hi) as [row Hrow].
      rewrite Hrow. by apply showProblemRow_run. }
  destruct (decide (0 < invalidRows a)%nat) as [Hbad|Hgood].
  - rewrite (bool_decide_eq_true_2 (0 < _)%nat) by done.
    rewrite (bool_decide_eq_false_2 (_ = 0)%nat) by lia.
    rewrite Hsamples. unfold bind, ret. cbn [fst snd map app].
    by rewrite app_nil_r.
  - rewrite (bool_decide_eq_false_2 (0 < _)%nat) by done.
    rewrite (bool_decide_eq_true_2 (_ = 0)%nat) by lia.
    rewrite bind_ret. done.
Qed.

(** ** The typed parse *)

Lemma processRow_errors (fields : list string) (tr : string → option string)
    (i : nat) (row : RawRow) :
  length (processRow testFloat isoDate fields tr i row).2
  = if bool_decide (length row = length fields) then 0%nat else 1%nat.
Proof.
  unfold processRow. cbn [snd].
  repeat case_bool_decide; cbn [length]; lia.
Qed.

Lemma field_errors_length (fields : list string)
    (g : nat → RawRow → gmap string value * list ParseError) (i : nat)
    (body : list RawRow) :
  (∀ j row, length (g j row).2
            = if bool_decide (length row = length fields) then 0 else 1)%nat →
  length (concat (imap g body).*2) = length (mismatched_from fields i body).
Proof.
  revert g i. induction body as [|row body IH]; intros g i Hg; [done|].
  cbn [imap fmap list_fmap concat mismatched_from].
  rewrite length_app, Hg, (IH _ (S i)) by (intros; apply Hg).
  by destruct (bool_decide _).
Qed.

Lemma parse_header_data (tr : string → option string) (content : string)
    (fields : RawRow) (body : list RawRow) :
  rows tokenize content = fields :: body →
  length (data (parse_header tokenize testFloat isoDate tr content))
  = length body.
Proof.
  intros Hrows. unfold parse_header. rewrite Hrows. cbn [data].
  by rewrite length_fmap, length_imap.
Qed.

Lemma parse_header_errors (tr : string → option string) (content : string)
    (fields : RawRow) (body : list RawRow) :
  rows tokenize content = fields :: body →
  length (errors (parse_header tokenize testFloat isoDate tr content))
  = (length (tokenize content).2
     + invalidRows (validateRows fields (fields :: body)))%nat.
Proof.
  intros Hrows. unfold parse_header. rewrite Hrows. cbn [errors].
  rewrite length_app, validateRows_spec, mismatched_cons. cbn [invalidRows].
  f_equal. apply field_errors_length. intros. apply processRow_errors.
Qed.

Lemma parse_header_no_rows (tr : string → option string) (content : string) :
  rows tokenize content = [] →
  data (parse_header tokenize testFloat isoDate tr content) = [].
Proof. intros Hrows. unfold parse_header. by rewrite Hrows. Qed.

(** ** Runs of [upsertCsv] *)

Section Run.

Variables (fuel : nat) (fs : FS) (filePath content : string) (config : Config)
  (remote0 : Remote).
Hypothesis client_ok :
  createClient (supabaseUrl config) (supabaseKey config) = Some remote0.
Hypothesis file_ok : fs filePath = Some (File content).

Let parsed : ParseResult record :=
  parse_header tokenize testFloat isoDate transform content.

Lemma upsertCsv_no_rows :
  rows tokenize content = [] →
  upsertCsv fuel fs filePath config
  = ([ReadFileSync filePath; ReadFileSync filePath; Stdout CsvStructure;
      Stderr (ProcessingError
                "Cannot read properties of undefined (reading 'length')")],
     Halt 1).
Proof.
  intros Hrows. unfold upsertCsv. rewrite client_ok.
  unfold readFileSync at 1. rewrite file_ok.
  rewrite (bind_val _ _ content) by reflexivity.
  unfold analyzeErrors, readFileSync. rewrite file_ok.
  rewrite (bind_val (bind (emit _) _) _ content) by reflexivity.
  unfold parse_raw. cbn [data]. rewrite Hrows. reflexivity.
Qed.

Section Rows.

Variables (headers : RawRow) (body : list RawRow).
Hypothesis rows_ok : rows tokenize content = headers :: body.

Let a : Analysis := validateRows headers (headers :: body).
Let report : list event :=
  ReadFileSync filePath :: ReadFileSync filePath
    :: map Stdout (analysisReport headers (headers :: body)).

Lemma upsertCsv_after_analysis :
  upsertCsv fuel fs filePath config
  = try_catch
      (let pr := if bool_decide (invalidRows a = 0)%nat
                 then mkResult (data parsed) [] else parsed in
       (report, Val tt) ;;
       if bool_decide (0 < length (errors pr))%nat
       then
         log WouldYouLike ;; log OptionContinue ;; log OptionAbort ;;
         process_exit 1
       else if bool_decide (length (data pr) = 0%nat)
       then error NoValidData ;; ret tt
       else
         log (FoundRecords (length (data pr))) ;;
         let* successCount :=
           batchLoop fuel config (data pr) (Js.Fin 0) 0 remote0 in
         log (Summary successCount (length (data pr))))
      (λ message, error (ProcessingError message) ;; process_exit 1).
Proof.
  unfold upsertCsv. rewrite client_ok. f_equal.
  unfold readFileSync at 1. rewrite file_ok.
  rewrite (bind_val _ _ content) by reflexivity.
  rewrite (bind_val _ _ _ (f_equal snd
    (analyzeErrors_run fs parsed filePath content headers body file_ok rows_ok))).
  rewrite (analyzeErrors_run fs _ filePath content headers body file_ok rows_ok).
  cbv zeta. rewrite (bind_val (report, Val tt) _ tt) by reflexivity.
  reflexivity.
Qed.

Lemma upsertCsv_abort :
  (0 < invalidRows a)%nat →
  upsertCsv fuel fs filePath config
  = (report ++ [Stdout WouldYouLike; Stdout OptionContinue; Stdout OptionAbort],
     Halt 1).
Proof.
  intros Hbad. rewrite upsertCsv_after_analysis. cbv zeta.
  rewrite (bool_decide_eq_false_2 (invalidRows a = 0)%nat) by lia.
  rewrite (bool_decide_eq_true_2 (0 < length (errors parsed))%nat).
  2:{ unfold parsed. rewrite (parse_header_errors _ _ _ _ rows_ok). fold a. lia. }
  reflexivity.
Qed.

Lemma upsertCsv_no_data :
  body = [] →
  upsertCsv fuel fs filePath config = (report ++ [Stderr NoValidData], Val tt).
Proof.
  intros Hbody. rewrite upsertCsv_after_analysis. cbv zeta.
  assert (invalidRows a = 0)%nat as Ha by (unfold a; by rewrite Hbody).
  rewrite (bool_decide_eq_true_2 (invalidRows a = 0)%nat) by done.
  cbn [errors data length].
  rewrite (bool_decide_eq_false_2 (0 < 0)%nat) by lia.
  rewrite (bool_decide_eq_true_2 (length (data parsed) = 0)%nat).
  2:{ unfold parsed. rewrite (parse_header_data _ _ _ _ rows_ok). by rewrite Hbody. }
  reflexivity.
Qed.

Lemma upsertCsv_batches (b : Z) :
  invalidRows a = 0%nat → body ≠ [] →
  batchSize config = Js.Fin b → 1 ≤ b →
  (batch_count (length (data parsed)) b < fuel)%nat →
  let total := Js.ceil_div (Js.Fin (Z.of_nat (length (data parsed)))) (Js.Fin b) in
  let r := runBatches config total 0 (batches b (data parsed)) 0 remote0 in
  upsertCsv fuel fs filePath config
  = (report ++ Stdout (FoundRecords (length (data parsed))) :: r.1
       ++ [Stdout (Summary r.2 (length (data parsed)))],
     Val tt).
Proof.
  intros Ha Hbody Hb Hpos Hfuel. cbv zeta. rewrite upsertCsv_after_analysis. cbv zeta.
  rewrite (bool_decide_eq_true_2 (invalidRows a = 0)%nat) by done.
  cbn [errors data length].
  rewrite (bool_decide_eq_false_2 (0 < 0)%nat) by lia.
  rewrite (bool_decide_eq_false_2 (length (data parsed) = 0)%nat).
  2:{ unfold parsed. rewrite (parse_header_data _ _ _ _ rows_ok).
      destruct body; [done|]. cbn [length]. lia. }
  pose proof (batchLoop_run config (data parsed) b Hb Hpos
                (batch_count (length (data parsed)) b) 0 fuel 0 remote0
                ltac:(lia) Hfuel) as Hloop.
  change (Z.of_nat 0 * b) with 0 in Hloop. cbv zeta in Hloop.
  rewrite Hb in Hloop. fold (batches b (data parsed)) in Hloop.
  rewrite bind_log. rewrite (bind_val _ _ _ (f_equal snd Hloop)).
  rewrite Hloop. reflexivity.
Qed.

End Rows.

End Run.

(** ** Runs of the action *)

Lemma action_ready (fuel : nat) (env : Env) (fs : FS) (file content : string)
    (options : Options) :
  ready env fs file content →
  action fuel env fs file options
  = (preamble file options
       ++ (upsertCsv fuel fs (resolve file) (configOf env options)).1,
     (upsertCsv fuel fs (resolve file) (configOf env options)).2).
Proof.
  intros (Hurl & Hkey & Hfile & _). unfold action. cbv zeta.
  rewrite Hurl, Hkey. cbn [negb orb]. rewrite bind_ret.
  unfold existsSync. rewrite Hfile.
  rewrite (bind_val _ _ true)
    by (cbn; f_equal; apply bool_decide_eq_true_2; by eexists).
  rewrite bind_ret, !bind_log. reflexivity.
Qed.

Lemma action_missing_env (fuel : nat) (env : Env) (fs : FS) (file : string)
    (options : Options) :
  Js.truthy (SUPABASE_URL env) = false ∨ Js.truthy (SUPABASE_KEY env) = false →
  action fuel env fs file options = ([Stderr MissingEnv], Halt 1).
Proof.
  intros H. unfold action. cbv zeta.
  replace (negb (Js.truthy (SUPABASE_URL env)) || negb (Js.truthy (SUPABASE_KEY env)))
    with true; [reflexivity|].
  destruct H as [-> | ->]; [done|]. by rewrite orb_true_r.
Qed.

Lemma last_snoc_app {A} (l k : list A) (x : A) : last (l ++ k ++ [x]) = Some x.
Proof. by rewrite app_assoc, last_snoc. Qed.

Lemma no_mismatch_valid (headers : RawRow) (rows : list RawRow) :
  mismatched headers (headers :: rows) = [] →
  invalidRows (validateRows headers (headers :: rows)) = 0%nat.
Proof. intros H. rewrite validateRows_spec. cbn [invalidRows]. by rewrite H. Qed.

Lemma some_mismatch_invalid (headers : RawRow) (rows : list RawRow) :
  mismatched headers (headers :: rows) ≠ [] →
  (0 < invalidRows (validateRows headers (headers :: rows)))%nat.
Proof.
  intros H. rewrite validateRows_spec. cbn [invalidRows].
  destruct (mismatched _ _); [done|]. cbn [length]. lia.
Qed.

(** C1: when some data row disagrees with the header on the number of
    cells, the process reports the first (at most three) such rows, makes no
    upsert call at all and exits with status 1. *)
Theorem structural_mismatch_aborts (fuel : nat) (env : Env) (fs : FS)
    (file content : string) (options : Options) (headers : RawRow)
    (body : list RawRow) :
  ready env fs file content →
  rows tokenize content = headers :: body →
  mismatched headers (headers :: body) ≠ [] →
  let run := action fuel env fs file options in
  run.2 = Halt 1 ∧ exit_status run.2 = Some 1%nat ∧
  upsert_calls run.1 = [] ∧
  reported_rows run.1 = take 3 (mismatched headers (headers :: body)) ∧
  (1 ≤ length (reported_rows run.1) ≤ 3)%nat.
Proof.
  intros Hready Hrows Hbad. cbv zeta.
  rewrite (action_ready _ _ _ _ _ _ Hready).
  destruct Hready as (_ & _ & Hfile & [remote0 Hclient]).
  rewrite (upsertCsv_abort fuel fs (resolve file) content (configOf env options)
             remote0 Hclient Hfile headers body Hrows
             (some_mismatch_invalid _ _ Hbad)).
  cbn [fst snd exit_status].
  assert (reported_rows
            (preamble file options ++
             (ReadFileSync (resolve file) :: ReadFileSync (resolve file)
                :: map Stdout (analysisReport headers (headers :: body))) ++
             [Stdout WouldYouLike; Stdout OptionContinue; Stdout OptionAbort])
          = take 3 (mismatched headers (headers :: body))) as Hrep.
  { rewrite !reported_rows_app. cbn [preamble].
    rewrite !reported_rows_cons, reported_rows_analysis.
    rewrite bool_decide_eq_true_2 by (by apply some_mismatch_invalid).
    rewrite validateRows_spec. cbn [problemRows].
    change (reported_rows []) with (@nil nat).
    by rewrite app_nil_r. }
  repeat split; try done.
  - rewrite !upsert_calls_app. cbn [preamble].
    rewrite !upsert_calls_cons, upsert_calls_logs. done.
  - rewrite Hrep, length_take.
    destruct (mismatched headers (headers :: body)); [done|]. cbn [length]. lia.
  - rewrite Hrep, length_take. lia.
Qed.

(** C8: when either credential is absent from the environment, the process
    exits with status 1 having printed only the complaint: it has neither
    looked for the input file nor read it. *)
Theorem missing_env_exits_before_io (fuel : nat) (env : Env) (fs : FS)
    (file : string) (options : Options) :
  SUPABASE_URL env = None ∨ SUPABASE_KEY env = None →
  let run := action fuel env fs file options in
  run = ([Stderr MissingEnv], Halt 1) ∧
  exit_status run.2 = Some 1%nat ∧
  List.filter is_file_io run.1 = [] ∧
  upsert_calls run.1 = [].
Proof.
  intros Hmissing. cbv zeta. rewrite action_missing_env; [done|].
  destruct Hmissing as [-> | ->]; [by left|by right].
Qed.

Lemma batch_count_ceil (n : nat) (b : Z) :
  1 ≤ b → Z.of_nat (batch_count n b) = Js.ceil_quot (Z.of_nat n) b.
Proof.
  intros Hb. unfold batch_count.
  destruct (ceil_quot_bounds (Z.of_nat n) b Hb ltac:(lia)) as (H0 & _).
  by rewrite Z2Nat.id.
Qed.

Lemma batchLoop_start (fuel : nat) (config : Config) (records : list record)
    (b : Z) (remote : Remote) :
  batchSize config = Js.Fin b → 1 ≤ b →
  (batch_count (length records) b < fuel)%nat →
  batchLoop fuel config records (Js.Fin 0) 0 remote
  = let total := Js.ceil_div (Js.Fin (Z.of_nat (length records))) (Js.Fin b) in
    let r := runBatches config total 0 (batches b records) 0 remote in
    (r.1, Val r.2).
Proof.
  intros Hb Hpos Hfuel.
  pose proof (batchLoop_run config records b Hb Hpos
                (batch_count (length records) b) 0 fuel 0 remote
                ltac:(lia) Hfuel) as Hloop.
  change (Z.of_nat 0 * b) with 0 in Hloop. by rewrite Hb in Hloop.
Qed.

(** C2: with a batch size of at least 1 the loop hands the records to the
    service in [ceil(n / batchSize)] batches; batch [k] is the run of records
    from position [k * batchSize] on, every batch but the last holds
    [batchSize] records, the last between 1 and [batchSize], and the batches
    put end to end are the record list. *)
Theorem batching_partitions (fuel : nat) (config : Config)
    (records : list record) (b : Z) (remote : Remote) :
  batchSize config = Js.Fin b → 1 ≤ b →
  (batch_count (length records) b < fuel)%nat →
  let calls :=
    upsert_calls (batchLoop fuel config records (Js.Fin 0) 0 remote).1 in
  Z.of_nat (length calls) = Js.ceil_quot (Z.of_nat (length records)) b ∧
  concat calls = records ∧
  ∀ (k : nat) (batch : list record), calls !! k = Some batch →
    batch = take (Z.to_nat b) (drop (k * Z.to_nat b) records) ∧
    (S k < length calls → Z.of_nat (length batch) = b)%nat ∧
    (S k = length calls → 1 ≤ Z.of_nat (length batch) ≤ b).
Proof.
  intros Hb Hpos Hfuel. cbv zeta.
  rewrite (batchLoop_start _ _ _ _ _ Hb Hpos Hfuel). cbv zeta. cbn [fst].
  rewrite runBatches_calls, length_batches.
  split; [by apply batch_count_ceil|].
  split; [by apply concat_batches|].
  intros k batch Hk.
  assert (k < batch_count (length records) b)%nat as Hlt.
  { rewrite <- (length_batches records b). by eapply lookup_lt_Some. }
  rewrite lookup_batches in Hk by done. injection Hk as <-.
  split; [done|]. split; intros Hlast.
  - by apply length_batch_full.
  - by apply length_batch_last.
Qed.

Lemma batch_count_0 (b : Z) : 1 ≤ b → batch_count 0 b = 0%nat.
Proof. intros Hb. pose proof (batch_count_le 0 b Hb). lia. Qed.

(** A run over a structurally sound file: nothing is reported as a problem,
    the error check is passed, and the records go out in batches. *)
Lemma action_clean (fuel : nat) (env : Env) (fs : FS) (file content : string)
    (options : Options) (headers : RawRow) (body : list RawRow) (b : Z) :
  ready env fs file content →
  rows tokenize content = headers :: body →
  mismatched headers (headers :: body) = [] →
  Js.parseInt (opt_batch options) = Js.Fin b → 1 ≤ b →
  (batch_count (length body) b < fuel)%nat →
  let records := data (parse_header tokenize testFloat isoDate transform content) in
  let run := action fuel env fs file options in
  ∃ (successCount : nat),
    run.2 = Val tt ∧
    upsert_calls run.1 = batches b records ∧
    length (upsert_errors run.1) = length (batches b records) ∧
    successCount = sum_list (accepted (upsert_calls run.1) (upsert_errors run.1)) ∧
    reported_rows run.1 = [] ∧
    last run.1 = Some (if bool_decide (body = [])
                       then Stderr NoValidData
                       else Stdout (Summary successCount (length records))).
Proof.
  intros Hready Hrows Hgood Hb Hpos Hfuel. cbv zeta.
  rewrite (action_ready _ _ _ _ _ _ Hready).
  destruct Hready as (_ & _ & Hfile & [remote0 Hclient]).
  pose proof (parse_header_data transform content headers body Hrows) as Hlen.
  assert (reported_rows (map Stdout (analysisReport headers (headers :: body)))
          = []) as Hquiet.
  { rewrite reported_rows_analysis, bool_decide_eq_false_2; [done|].
    rewrite (no_mismatch_valid _ _ Hgood). lia. }
  destruct (decide (body = [])) as [Hbody|Hbody].
  - rewrite (upsertCsv_no_data fuel fs (resolve file) content (configOf env options)
               remote0 Hclient Hfile headers body Hrows Hbody).
    rewrite Hbody in Hlen. apply nil_length_inv in Hlen. rewrite Hlen.
    rewrite bool_decide_eq_true_2 by done.
    unfold batches. cbn [length fst snd]. rewrite batch_count_0 by done.
    cbn [seq map length preamble app].
    exists 0%nat. rewrite !app_comm_cons, last_snoc.
    rewrite !upsert_calls_app, !upsert_errors_app, !reported_rows_app.
    rewrite !upsert_calls_cons, !upsert_errors_cons, !reported_rows_cons.
    rewrite upsert_calls_logs, Hquiet.
    rewrite upsert_errors_logs. done.
  - rewrite (upsertCsv_batches fuel fs (resolve file) content (configOf env options)
               remote0 Hclient Hfile headers body Hrows b
               (no_mismatch_valid _ _ Hgood) Hbody Hb Hpos)
      by (by rewrite Hlen).
    rewrite bool_decide_eq_false_2 by done. cbn [fst snd].
    set (records := data (parse_header tokenize testFloat isoDate transform content)).
    set (r := runBatches _ _ 0 (batches b records) 0 remote0).
    exists r.2.
    assert (∀ t : list event,
      preamble file options ++
        (ReadFileSync (resolve file) :: ReadFileSync (resolve file)
           :: map Stdout (analysisReport headers (headers :: body)))
        ++ Stdout (FoundRecords (length records)) :: r.1 ++ t
      = (preamble file options ++
          [ReadFileSync (resolve file); ReadFileSync (resolve file)]
          ++ map Stdout (analysisReport headers (headers :: body))
          ++ [Stdout (FoundRecords (length records))]) ++ r.1 ++ t) as Hshape.
    { intros t. cbn [app preamble]. by rewrite <- !app_assoc. }
    rewrite Hshape.
    assert (upsert_calls
              (preamble file options ++
                [ReadFileSync (resolve file); ReadFileSync (resolve file)]
                ++ map Stdout (analysisReport headers (headers :: body))
                ++ [Stdout (FoundRecords (length records))]) = []) as Hpc.
    { rewrite !upsert_calls_app. cbn [preamble].
      rewrite !upsert_calls_cons, upsert_calls_logs. done. }
    assert (upsert_errors
              (preamble file options ++
                [ReadFileSync (resolve file); ReadFileSync (resolve file)]
                ++ map Stdout (analysisReport headers (headers :: body))
                ++ [Stdout (FoundRecords (length records))]) = []) as Hpe.
    { rewrite !upsert_errors_app. cbn [preamble].
      rewrite !upsert_errors_cons, upsert_errors_logs. done. }
    assert (reported_rows
              (preamble file options ++
                [ReadFileSync (resolve file); ReadFileSync (resolve file)]
                ++ map Stdout (analysisReport headers (headers :: body))
                ++ [Stdout (FoundRecords (length records))]) = []) as Hpr.
    { rewrite !reported_rows_app. cbn [preamble].
      rewrite !reported_rows_cons, Hquiet. done. }
    rewrite last_snoc_app.
    rewrite upsert_calls_app, upsert_errors_app, reported_rows_app.
    rewrite Hpc, Hpe, Hpr. cbn [app].
    rewrite upsert_calls_app, upsert_errors_app, reported_rows_app.
    rewrite !upsert_calls_cons, !upsert_errors_cons, !reported_rows_cons.
    change (upsert_calls []) with (@nil (list record)).
    change (upsert_errors []) with (@nil (option string)).
    change (reported_rows []) with (@nil nat).
    rewrite !app_nil_r.
    unfold r. rewrite runBatches_calls, runBatches_answers, runBatches_reported.
    repeat split; try done.
    rewrite runBatches_count at 1. lia.
Qed.

(** C3 (as amended): a batch whose upsert call reports an error is not
    submitted again and adds nothing to the success count, the remaining
    batches are still submitted, and the summary gives the success count out
    of the number of records.  For 125 records and a batch size of 50 the
    calls carry 50, 50 and 25 records; when only the second one fails the
    summary reads 75 of 125 and the exit status is 0. *)
Theorem batch_errors_tolerated (fuel : nat) (env : Env) (fs : FS)
    (file content : string) (options : Options) (headers : RawRow)
    (body : list RawRow) (b : Z) :
  ready env fs file content →
  rows tokenize content = headers :: body →
  body ≠ [] →
  mismatched headers (headers :: body) = [] →
  Js.parseInt (opt_batch options) = Js.Fin b → 1 ≤ b →
  (batch_count (length body) b < fuel)%nat →
  let records := data (parse_header tokenize testFloat isoDate transform content) in
  let run := action fuel env fs file options in
  let calls := upsert_calls run.1 in
  let answers := upsert_errors run.1 in
  calls = batches b records ∧
  length answers = length calls ∧
  last run.1 = Some (Stdout (Summary (sum_list (accepted calls answers))
                               (length records))) ∧
  run.2 = Val tt ∧ exit_status run.2 = Some 0%nat ∧
  (length records = 125%nat → b = 50 →
   length <$> calls = [50; 50; 25]%nat ∧
   ∀ e, answers = [None; Some e; None] →
        last run.1 = Some (Stdout (Summary 75 125))).
Proof.
  intros Hready Hrows Hbody Hgood Hb Hpos Hfuel. cbv zeta.
  destruct (action_clean fuel env fs file content options headers body b
              Hready Hrows Hgood Hb Hpos Hfuel)
    as (sc & Hval & Hcalls & Hans & Hsc & _ & Hlast).
  rewrite bool_decide_eq_false_2 in Hlast by done. subst sc.
  rewrite Hval. repeat split; try done.
  - by rewrite Hans, Hcalls.
  - rewrite Hcalls. unfold batches. rewrite H, H0.
    change (batch_count 125 50) with 3%nat. cbn [seq map fmap list_fmap].
    rewrite !length_batch_at, H by lia. reflexivity.
  - intros e He. rewrite Hlast. do 3 f_equal; [|done].
    rewrite He, Hcalls. unfold batches. rewrite H, H0.
    change (batch_count 125 50) with 3%nat. cbn [seq map accepted sum_list_with].
    rewrite !length_batch_at, H by lia. reflexivity.
Qed.

(** C5: when the structural pass counts no invalid row, the error list of the
    typed parser is emptied, whatever it held, and the records are kept; the
    run then passes the error check and goes on to submit the records, ending
    with exit status 0. *)
Theorem clean_structure_clears_errors (env : Env) (fs : FS)
    (file content : string) (options : Options) (headers : RawRow)
    (body : list RawRow) :
  ready env fs file content →
  rows tokenize content = headers :: body →
  mismatched headers (headers :: body) = [] →
  (∀ parseResult : ParseResult record,
     (analyzeErrors fs parseResult (resolve file)).2
     = Val (mkResult (data parseResult) [])) ∧
  (∀ (b : Z) (fuel : nat),
     Js.parseInt (opt_batch options) = Js.Fin b → 1 ≤ b →
     (batch_count (length body) b < fuel)%nat →
     let records :=
       data (parse_header tokenize testFloat isoDate transform content) in
     let run := action fuel env fs file options in
     run.2 = Val tt ∧ exit_status run.2 = Some 0%nat ∧
     upsert_calls run.1 = batches b records).
Proof.
  intros Hready Hrows Hgood. split.
  - intros parseResult. destruct Hready as (_ & _ & Hfile & _).
    rewrite (analyzeErrors_run fs parseResult _ content headers body Hfile Hrows).
    cbn [snd]. by rewrite (no_mismatch_valid _ _ Hgood).
  - intros b fuel Hb Hpos Hfuel. cbv zeta.
    destruct (action_clean fuel env fs file content options headers body b
                Hready Hrows Hgood Hb Hpos Hfuel)
      as (sc & Hval & Hcalls & _).
    by rewrite Hval.
Qed.

(** C4 (as amended): when the typed parse yields no record, no upsert call is
    made.  The exit status is 1 only for a file without any row, where the
    analysis fails on the missing header; a file that has its header row and
    nothing else is reported as holding no valid data and the process ends
    normally, with status 0. *)
Theorem no_records_outcome (fuel : nat) (env : Env) (fs : FS)
    (file content : string) (options : Options) :
  ready env fs file content →
  data (parse_header tokenize testFloat isoDate transform content) = [] →
  let run := action fuel env fs file options in
  upsert_calls run.1 = [] ∧
  ((rows tokenize content = [] ∧ run.2 = Halt 1 ∧
    exit_status run.2 = Some 1%nat) ∨
   (∃ headers, rows tokenize content = [headers] ∧ run.2 = Val tt ∧
      exit_status run.2 = Some 0%nat ∧
      last run.1 = Some (Stderr NoValidData))).
Proof.
  intros Hready Hnone. cbv zeta.
  rewrite (action_ready _ _ _ _ _ _ Hready).
  destruct Hready as (_ & _ & Hfile & [remote0 Hclient]).
  destruct (rows tokenize content) as [|headers body] eqn:Hrows.
  - rewrite (upsertCsv_no_rows fuel fs (resolve file) content (configOf env options)
               remote0 Hclient Hfile Hrows).
    split; [done|]. left. done.
  - pose proof (parse_header_data transform content headers body Hrows) as Hlen.
    rewrite Hnone in Hlen. symmetry in Hlen. apply nil_length_inv in Hlen.
    rewrite (upsertCsv_no_data fuel fs (resolve file) content (configOf env options)
               remote0 Hclient Hfile headers body Hrows Hlen).
    cbn [fst snd exit_status]. split.
    + rewrite !upsert_calls_app. cbn [preamble].
      rewrite !upsert_calls_cons, upsert_calls_logs. done.
    + right. exists headers. rewrite Hlen. repeat split; done.
Qed.

(** C9: [analyzeErrors] leaves the record list of the parse result as it
    found it and touches nothing but the error list, which it either keeps or
    empties; and whenever records are submitted, the batches put end to end
    are the record list of the typed parse, record for record. *)
Theorem records_not_mutated :
  (∀ (fs : FS) (parseResult after : ParseResult record) (filePath : string)
     (t : list event),
     analyzeErrors fs parseResult filePath = (t, Val after) →
     data after = data parseResult ∧
     (errors after = errors parseResult ∨ errors after = [])) ∧
  (∀ (fuel : nat) (env : Env) (fs : FS) (file content : string)
     (options : Options) (b : Z),
     ready env fs file content →
     Js.parseInt (opt_batch options) = Js.Fin b → 1 ≤ b →
     (length (rows tokenize content) ≤ fuel)%nat →
     let records :=
       data (parse_header tokenize testFloat isoDate transform content) in
     let run := action fuel env fs file options in
     (run.2 = Val tt ∧ concat (upsert_calls run.1) = records) ∨
     (run.2 = Halt 1 ∧ upsert_calls run.1 = [])).
Proof.
  split.
  - intros fs parseResult after filePath t Hrun.
    destruct (fs filePath) as [[|content]|] eqn:Hfile.
    + unfold analyzeErrors, readFileSync in Hrun. by rewrite Hfile in Hrun.
    + destruct (rows tokenize content) as [|headers body] eqn:Hrows.
      * unfold analyzeErrors, readFileSync in Hrun. rewrite Hfile in Hrun.
        rewrite (bind_val _ _ content) in Hrun by reflexivity.
        unfold parse_raw in Hrun. cbn [data] in Hrun. by rewrite Hrows in Hrun.
      * rewrite (analyzeErrors_run fs parseResult _ content headers body Hfile Hrows)
          in Hrun.
        injection Hrun as _ <-. destruct (bool_decide _); cbn [data errors]; auto.
    + unfold analyzeErrors, readFileSync in Hrun. by rewrite Hfile in Hrun.
  - intros fuel env fs file content options b Hready Hb Hpos Hfuel. cbv zeta.
    destruct (rows tokenize content) as [|headers body] eqn:Hrows.
    { right. rewrite (action_ready _ _ _ _ _ _ Hready).
      destruct Hready as (_ & _ & Hfile & [remote0 Hclient]).
      by rewrite (upsertCsv_no_rows fuel fs (resolve file) content
                    (configOf env options) remote0 Hclient Hfile Hrows). }
    destruct (decide (mismatched headers (headers :: body) = [])) as [Hgood|Hbad].
    + left.
      assert (batch_count (length body) b < fuel)%nat as Hfuel'.
      { pose proof (batch_count_le (length body) b Hpos).
        cbn [length] in Hfuel. lia. }
      destruct (action_clean fuel env fs file content options headers body b
                  Hready Hrows Hgood Hb Hpos Hfuel')
        as (sc & Hval & Hcalls & _).
      split; [done|]. rewrite Hcalls. by apply concat_batches.
    + right. rewrite (action_ready _ _ _ _ _ _ Hready).
      destruct Hready as (_ & _ & Hfile & [remote0 Hclient]).
      rewrite (upsertCsv_abort fuel fs (resolve file) content (configOf env options)
                 remote0 Hclient Hfile headers body Hrows
                 (some_mismatch_invalid _ _ Hbad)).
      cbn [fst snd]. split; [done|].
      rewrite !upsert_calls_app. cbn [preamble].
      rewrite !upsert_calls_cons, upsert_calls_logs. done.
Qed.

(** C10: with a batch size of at least 1 the loop ends after exactly
    [ceil(n / batchSize)] iterations (one service call each): that many
    iterations and the closing test are needed and are enough; and a run that
    reaches the loop prints the summary as its last line and returns. *)
Theorem batch_loop_terminates (config : Config) (records : list record) (b : Z)
    (remote : Remote) :
  batchSize config = Js.Fin b → 1 ≤ b →
  let N := batch_count (length records) b in
  let loop fuel := batchLoop fuel config records (Js.Fin 0) 0 remote in
  Z.of_nat N = Js.ceil_quot (Z.of_nat (length records)) b ∧
  (∀ fuel, (fuel ≤ N)%nat → (loop fuel).2 = Diverge) ∧
  (∀ fuel, (N < fuel)%nat →
     (∃ successCount, (loop fuel).2 = Val successCount) ∧
     length (upsert_calls (loop fuel).1) = N ∧
     loop fuel = loop (S N)) ∧
  (∀ (fuel : nat) (fs : FS) (filePath content : string) (remote0 : Remote)
     (headers : RawRow) (body : list RawRow),
     createClient (supabaseUrl config) (supabaseKey config) = Some remote0 →
     fs filePath = Some (File content) →
     rows tokenize content = headers :: body →
     mismatched headers (headers :: body) = [] → body ≠ [] →
     (batch_count (length body) b < fuel)%nat →
     let run := upsertCsv fuel fs filePath config in
     run.2 = Val tt ∧
     ∃ successCount, last run.1 = Some (Stdout (Summary successCount (length body)))).
Proof.
  intros Hb Hpos. cbv zeta. split; [by apply batch_count_ceil|].
  split; [|split].
  - intros fuel Hfuel.
    exact (batchLoop_short config records b Hb Hpos
             (batch_count (length records) b) 0 fuel 0 remote ltac:(lia) Hfuel).
  - intros fuel Hfuel.
    rewrite (batchLoop_start _ _ _ _ _ Hb Hpos Hfuel).
    rewrite (batchLoop_start (S _) _ _ _ _ Hb Hpos (Nat.lt_succ_diag_r _)).
    cbv zeta. cbn [fst snd]. split; [by eexists|].
    by rewrite runBatches_calls, length_batches.
  - intros fuel fs filePath content remote0 headers body Hclient Hfile Hrows
      Hgood Hbody Hfuel.
    pose proof (parse_header_data transform content headers body Hrows) as Hlen.
    rewrite (upsertCsv_batches fuel fs filePath content config remote0 Hclient
               Hfile headers body Hrows b (no_mismatch_valid _ _ Hgood) Hbody
               Hb Hpos) by (by rewrite Hlen).
    cbn [fst snd]. split; [done|]. eexists.
    rewrite app_comm_cons, last_snoc_app, Hlen. done.
Qed.

(** ** The structural analysis *)

Lemma mismatched_from_none (headers : RawRow) (i : nat) (rest : list RawRow) :
  (∀ row, row ∈ rest → length row = length headers) →
  mismatched_from headers i rest = [].
Proof.
  revert i. induction rest as [|row rest IH]; intros i Hall; [done|].
  cbn [mismatched_from]. rewrite bool_decide_eq_true_2 by (apply Hall; left).
  apply IH. intros r Hr. apply Hall. by right.
Qed.

(** C6: the analyzer counts as invalid exactly the data rows whose number of
    cells differs from the header's, and keeps as problem rows the indices of
    the first three of them, in the order met; a file whose rows all have the
    header's number of cells has no invalid row and no problem row. *)
Theorem structural_counts (headers : RawRow) (rest : list RawRow) :
  let P := mismatched headers (headers :: rest) in
  (∀ i, In i P ↔
        (1 ≤ i)%nat ∧ ∃ row, (headers :: rest) !! i = Some row ∧
                             length row ≠ length headers) ∧
  ∃ a, analyze (headers :: rest) = Some a ∧
       invalidRows a = length P ∧
       validRows a = (length rest - length P)%nat ∧
       problemRows a = take 3 P ∧
       length (problemRows a) = (length P `min` 3)%nat ∧
       ((∀ row, row ∈ rest → length row = length headers) →
        invalidRows a = 0%nat ∧ problemRows a = []).
Proof.
  cbv zeta. split.
  - intros i. unfold mismatched. rewrite filter_In, in_seq. cbn [length].
    split.
    + intros [Hi Hrow]. split; [lia|].
      destruct ((headers :: rest) !! i) as [row|]; [|done].
      exists row. split; [done|]. by case_bool_decide.
    + intros [Hi (row & Hrow & Hne)]. split.
      * apply lookup_lt_Some in Hrow. cbn [length] in Hrow. lia.
      * rewrite Hrow. by rewrite bool_decide_eq_false_2.
  - eexists. split; [reflexivity|]. rewrite validateRows_spec.
    cbn [invalidRows validRows problemRows].
    split; [done|]. split; [done|]. split; [done|].
    split; [rewrite length_take; lia|].
    intros Hall. by rewrite mismatched_cons, mismatched_from_none.
Qed.

(** ** Typed cells *)
















(** * Further properties of the program *)

(** [batch] is a run of consecutive elements of [l]: the [n] elements that
    follow the first [k], as far as they exist. *)
Definition run_of {A} (batch l : list A) : Prop :=
  ∃ k n : nat, batch = take n (drop k l).

(** What the loop may emit: upsert calls on the configured table and key,
    each carrying a run of consecutive records, and the line that follows
    each call. *)
Definition loop_event (config : Config) (records : list record) (e : event)
    : Prop :=
  match e with
  | Upsert table batch key _ =>
      table = tableName config ∧ key = uniqueKey config ∧
      run_of batch records
  | Stdout (ProcessedBatch _ _) | Stderr (BatchError _ _) => True
  | _ => False
  end.

(** The batch number printed after each call, and the totals printed. *)
Definition batch_numbers (t : list event) : list Js.num :=
  omap (λ e, match e with
             | Stdout (ProcessedBatch current _) => Some current
             | Stderr (BatchError current _) => Some current
             | _ => None
             end) t.

Definition batch_totals (t : list event) : list Js.num :=
  omap (λ e, match e with
             | Stdout (ProcessedBatch _ total) => Some total
             | _ => None
             end) t.

(** The column lines of a report: position, and whether the line is an
    extra-column line. *)
Definition column_lines (t : list event) : list (nat * bool) :=
  omap (λ e, match e with
             | Stdout (Column position _ _) => Some (position, false)
             | Stdout (ExtraColumn position _) => Some (position, true)
             | _ => None
             end) t.

(** ** The front end *)

(** X1: with both credentials set, a file that does not exist ends the run
    with status 1 right after the existence test: the file is not read and
    nothing is submitted. *)
Theorem file_not_found_exits (fuel : nat) (env : Env) (fs : FS) (file : string)
    (options : Options) :
  Js.truthy (SUPABASE_URL env) = true →
  Js.truthy (SUPABASE_KEY env) = true →
  fs (resolve file) = None →
  action fuel env fs file options
  = ([ExistsSync (resolve file); Stderr (FileNotFound (resolve file))], Halt 1).
Proof.
  intros Hurl Hkey Hnone. unfold action. cbv zeta.
  rewrite Hurl, Hkey. cbn [negb orb]. rewrite bind_ret.
  unfold existsSync. rewrite Hnone.
  rewrite (bind_val _ _ false) by reflexivity. reflexivity.
Qed.

(** X2: the run is the missing-credentials abort exactly when one of the two
    variables is absent or is the empty string; in every other case the
    first thing the process does is test whether the file exists. *)
Theorem missing_env_iff_falsy (fuel : nat) (env : Env) (fs : FS) (file : string)
    (options : Options) :
  (action fuel env fs file options = ([Stderr MissingEnv], Halt 1)
   ↔ (SUPABASE_URL env = None ∨ SUPABASE_URL env = Some "" ∨
      SUPABASE_KEY env = None ∨ SUPABASE_KEY env = Some "")) ∧
  (action fuel env fs file options ≠ ([Stderr MissingEnv], Halt 1) →
   head (action fuel env fs file options).1 = Some (ExistsSync (resolve file))).
Proof.
  assert (∀ o, Js.truthy o = false ↔ o = None ∨ o = Some "") as Hfalsy.
  { intros [[|c s]|]; cbn; split; intros H; try done; auto;
      destruct H as [H|H]; done. }
  assert (Js.truthy (SUPABASE_URL env) = true →
          Js.truthy (SUPABASE_KEY env) = true →
          head (action fuel env fs file options).1
          = Some (ExistsSync (resolve file))) as Hstart.
  { intros Hurl Hkey. unfold action. cbv zeta.
    rewrite Hurl, Hkey. cbn [negb orb]. rewrite bind_ret.
    unfold existsSync, bind at 1. cbn [fst snd emit ret app head].
    by destruct (bind _ _).2. }
  split; [split|].
  - intros Hrun.
    destruct (Js.truthy (SUPABASE_URL env)) eqn:Hurl;
      [|apply Hfalsy in Hurl; tauto].
    destruct (Js.truthy (SUPABASE_KEY env)) eqn:Hkey;
      [|apply Hfalsy in Hkey; tauto].
    specialize (Hstart eq_refl eq_refl). by rewrite Hrun in Hstart.
  - intros H. apply action_missing_env.
    rewrite !Hfalsy. tauto.
  - intros Hrun.
    destruct (Js.truthy (SUPABASE_URL env)) eqn:Hurl;
      [|destruct Hrun; apply action_missing_env; by left].
    destruct (Js.truthy (SUPABASE_KEY env)) eqn:Hkey;
      [|destruct Hrun; apply action_missing_env; by right].
    by apply Hstart.
Qed.

Lemma bind_throw {A B} (m : M A) (k : A → M B) (e : string) :
  m.2 = Throw e → bind m k = (m.1, Throw e).
Proof. intros H. unfold bind. by rewrite H. Qed.

Lemma action_started (fuel : nat) (env : Env) (fs : FS) (file : string)
    (options : Options) :
  Js.truthy (SUPABASE_URL env) = true →
  Js.truthy (SUPABASE_KEY env) = true →
  is_Some (fs (resolve file)) →
  action fuel env fs file options
  = (preamble file options
       ++ (upsertCsv fuel fs (resolve file) (configOf env options)).1,
     (upsertCsv fuel fs (resolve file) (configOf env options)).2).
Proof.
  intros Hurl Hkey Hfile. unfold action. cbv zeta.
  rewrite Hurl, Hkey. cbn [negb orb]. rewrite bind_ret.
  unfold existsSync.
  rewrite (bind_val _ _ true)
    by (cbn; f_equal; by apply bool_decide_eq_true_2).
  rewrite bind_ret, !bind_log. reflexivity.
Qed.

(** X3: when the client cannot be built, the exception is caught, reported
    on the error stream, and the process exits with status 1; the input file
    has been looked for but is never read, and nothing is submitted. *)
Theorem client_failure_exits (fuel : nat) (env : Env) (fs : FS) (file : string)
    (options : Options) :
  Js.truthy (SUPABASE_URL env) = true →
  Js.truthy (SUPABASE_KEY env) = true →
  is_Some (fs (resolve file)) →
  createClient (default "" (SUPABASE_URL env)) (default "" (SUPABASE_KEY env))
  = None →
  let run := action fuel env fs file options in
  run.2 = Halt 1 ∧
  (∃ message, last run.1 = Some (Stderr (ProcessingError message))) ∧
  List.filter is_file_io run.1 = [ExistsSync (resolve file)] ∧
  upsert_calls run.1 = [].
Proof.
  intros Hurl Hkey Hfile Hclient. cbv zeta.
  rewrite (action_started _ _ _ _ _ Hurl Hkey Hfile).
  unfold upsertCsv. cbn [supabaseUrl supabaseKey configOf]. rewrite Hclient.
  cbn. split; [done|]. split; [by eexists|]. done.
Qed.

(** X4: when the file is there but cannot be read, the exception of the
    first read is caught and the process exits with status 1: no second read
    is attempted, no analysis is printed and nothing is submitted. *)
Theorem unreadable_file_exits (fuel : nat) (env : Env) (fs : FS) (file : string)
    (options : Options) :
  Js.truthy (SUPABASE_URL env) = true →
  Js.truthy (SUPABASE_KEY env) = true →
  fs (resolve file) = Some Unreadable →
  is_Some (createClient (default "" (SUPABASE_URL env))
             (default "" (SUPABASE_KEY env))) →
  ∃ message,
    action fuel env fs file options
    = (preamble file options
         ++ [ReadFileSync (resolve file); Stderr (ProcessingError message)],
       Halt 1).
Proof.
  intros Hurl Hkey Hfile [remote0 Hclient].
  rewrite (action_started _ _ _ _ _ Hurl Hkey ltac:(by eexists)).
  unfold upsertCsv. cbn [supabaseUrl supabaseKey configOf]. rewrite Hclient.
  unfold readFileSync. rewrite Hfile.
  exists (String.append "cannot read " (resolve file)).
  rewrite (bind_throw (emit (ReadFileSync (resolve file)) ;; throw _) _
             (String.append "cannot read " (resolve file)) eq_refl).
  reflexivity.
Qed.

(** ** The loop, whatever the batch size *)

Lemma slice_run {A} (l : list A) (a b : Js.num) : run_of (Js.slice l a b) l.
Proof. unfold Js.slice. by eexists _, _. Qed.

Lemma batchLoop_events (fuel : nat) (config : Config) (records : list record)
    (i : Js.num) (successCount : nat) (remote : Remote) :
  Forall (loop_event config records)
    (batchLoop fuel config records i successCount remote).1.
Proof.
  revert i successCount remote.
  induction fuel as [|fuel IH]; intros i successCount remote; [constructor|].
  cbn [batchLoop]. destruct (Js.lt _ _); [|constructor].
  cbv zeta. rewrite bind_emit. cbn [fst]. constructor.
  { cbn. split; [done|]. split; [done|]. apply slice_run. }
  destruct (upsert remote _ _ _).2 as [e|].
  - rewrite (bind_val _ _ successCount) by reflexivity. cbn [fst].
    constructor; [done|]. apply IH.
  - rewrite (bind_val _ _ (successCount + length (Js.slice records i
      (Js.add i (batchSize config))))%nat) by reflexivity.
    cbn [fst]. constructor; [done|]. apply IH.
Qed.

Lemma batchLoop_outcome (fuel : nat) (config : Config) (records : list record)
    (i : Js.num) (successCount : nat) (remote : Remote) :
  let r := (batchLoop fuel config records i successCount remote).2 in
  (∃ n, r = Val n) ∨ r = Diverge.
Proof.
  revert i successCount remote.
  induction fuel as [|fuel IH]; intros i successCount remote; [by right|].
  cbn [batchLoop]. destruct (Js.lt _ _); [|left; by eexists].
  cbv zeta. rewrite bind_emit. cbn [snd].
  destruct (upsert remote _ _ _).2 as [e|].
  - rewrite (bind_val _ _ successCount) by reflexivity. cbn [snd]. apply IH.
  - rewrite (bind_val _ _ (successCount + length (Js.slice records i
      (Js.add i (batchSize config))))%nat) by reflexivity.
    cbn [snd]. apply IH.
Qed.

Lemma loop_events_no_io (config : Config) (records : list record)
    (t : list event) :
  Forall (loop_event config records) t → List.filter is_file_io t = [].
Proof.
  induction 1 as [|e t He _ IH]; [done|].
  cbn [List.filter]. rewrite IH.
  destruct e as [[]|[]| | |]; done.
Qed.

Lemma logs_no_io (ms : list msg) : List.filter is_file_io (map Stdout ms) = [].
Proof. induction ms as [|m ms IH]; [done|]. cbn. exact IH. Qed.

Lemma bind_diverge {A B} (m : M A) (k : A → M B) :
  m.2 = Diverge → bind m k = (m.1, Diverge).
Proof. intros H. unfold bind. by rewrite H. Qed.

(** A run over a structurally sound file with at least one record, for any
    batch size and any number of steps. *)
Lemma upsertCsv_clean_any (fuel : nat) (fs : FS) (filePath content : string)
    (config : Config) (remote0 : Remote) (headers : RawRow) (body : list RawRow) :
  createClient (supabaseUrl config) (supabaseKey config) = Some remote0 →
  fs filePath = Some (File content) →
  rows tokenize content = headers :: body →
  invalidRows (validateRows headers (headers :: body)) = 0%nat → body ≠ [] →
  let records := data (parse_header tokenize testFloat isoDate transform content) in
  let loop := batchLoop fuel config records (Js.Fin 0) 0 remote0 in
  upsertCsv fuel fs filePath config
  = ((ReadFileSync filePath :: ReadFileSync filePath
        :: map Stdout (analysisReport headers (headers :: body)))
       ++ Stdout (FoundRecords (length records)) :: loop.1
       ++ match loop.2 with
          | Val successCount => [Stdout (Summary successCount (length records))]
          | _ => []
          end,
     match loop.2 with
     | Val _ => Val tt
     | _ => Diverge
     end).
Proof.
  intros Hclient Hfile Hrows Hgood Hbody. cbv zeta.
  rewrite (upsertCsv_after_analysis fuel fs filePath content config remote0
             Hclient Hfile headers body Hrows).
  cbv zeta. rewrite (bool_decide_eq_true_2 (_ = 0)%nat) by done.
  cbn [errors data length].
  rewrite (bool_decide_eq_false_2 (0 < 0)%nat) by lia.
  rewrite (bool_decide_eq_false_2 (length _ = 0)%nat).
  2:{ rewrite (parse_header_data _ _ _ _ Hrows).
      destruct body; [done|]. cbn [length]. lia. }
  rewrite bind_log.
  set (loop := batchLoop _ _ _ _ _ _).
  destruct (batchLoop_outcome fuel config
              (data (parse_header tokenize testFloat isoDate transform content))
              (Js.Fin 0) 0 remote0) as [[n Hn]|Hd].
  - change (loop.2 = Val n) in Hn.
    rewrite (bind_val loop _ n Hn), Hn. reflexivity.
  - change (loop.2 = Diverge) in Hd.
    rewrite (bind_diverge loop _ Hd), Hd. cbn [fst snd].
    unfold try_catch, bind. cbn [fst snd]. by rewrite app_nil_r.
Qed.

(** X5: a run that gets as far as parsing tests once whether the file
    exists and then reads it exactly twice (once for the typed parse, once
    for the structural analysis), whatever the file holds, whatever the batch
    size and however the service answers; it touches no other path. *)
Theorem file_read_twice (fuel : nat) (env : Env) (fs : FS)
    (file content : string) (options : Options) :
  ready env fs file content →
  List.filter is_file_io (action fuel env fs file options).1
  = [ExistsSync (resolve file); ReadFileSync (resolve file);
     ReadFileSync (resolve file)].
Proof.
  intros Hready. rewrite (action_ready _ _ _ _ _ _ Hready).
  destruct Hready as (_ & _ & Hfile & [remote0 Hclient]). cbn [fst].
  rewrite List.filter_app. cbn [preamble List.filter is_file_io app]. f_equal.
  destruct (rows tokenize content) as [|headers body] eqn:Hrows.
  { by rewrite (upsertCsv_no_rows fuel fs (resolve file) content
                  (configOf env options) remote0 Hclient Hfile Hrows). }
  destruct (decide (invalidRows (validateRows headers (headers :: body)) = 0)%nat)
    as [Hgood|Hbad].
  - destruct (decide (body = [])) as [Hbody|Hbody].
    + rewrite (upsertCsv_no_data fuel fs (resolve file) content
                 (configOf env options) remote0 Hclient Hfile headers body
                 Hrows Hbody).
      cbn [fst]. rewrite List.filter_app. cbn [List.filter is_file_io].
      rewrite logs_no_io. done.
    + rewrite (upsertCsv_clean_any fuel fs (resolve file) content
                 (configOf env options) remote0 headers body
                 Hclient Hfile Hrows Hgood Hbody).
      cbn [fst]. rewrite List.filter_app. cbn [List.filter is_file_io].
      rewrite logs_no_io, List.filter_app.
      rewrite (loop_events_no_io _ _ _ (batchLoop_events _ _ _ _ _ _)).
      by destruct (batchLoop _ _ _ _ _ _).2.
  - rewrite (upsertCsv_abort fuel fs (resolve file) content
               (configOf env options) remote0 Hclient Hfile headers body
               Hrows ltac:(lia)).
    cbn [fst]. rewrite List.filter_app. cbn [List.filter is_file_io].
    rewrite logs_no_io. done.
Qed.

(** An upsert call on the table and key of the options, carrying a run of
    consecutive records of [records]; any other event passes. *)
Definition submits_from (options : Options) (records : list record) (e : event)
    : Prop :=
  match e with
  | Upsert table batch key _ =>
      table = opt_table options ∧ key = opt_id options ∧
      run_of batch records
  | _ => True
  end.

Lemma logs_submit (options : Options) (records : list record) (ms : list msg) :
  Forall (submits_from options records) (map Stdout ms).
Proof. induction ms; constructor; done. Qed.

Lemma loop_events_submit (env : Env) (options : Options)
    (records : list record) (t : list event) :
  Forall (loop_event (configOf env options) records) t →
  Forall (submits_from options records) t.
Proof.
  intros H. eapply Forall_impl; [exact H|].
  intros [[]|[]| | |]; cbn; tauto.
Qed.

Lemma action_file_missing (fuel : nat) (env : Env) (fs : FS) (file : string)
    (options : Options) :
  Js.truthy (SUPABASE_URL env) = true →
  Js.truthy (SUPABASE_KEY env) = true →
  fs (resolve file) = None →
  action fuel env fs file options
  = ([ExistsSync (resolve file); Stderr (FileNotFound (resolve file))], Halt 1).
Proof.
  intros Hurl Hkey Hnone. unfold action. cbv zeta.
  rewrite Hurl, Hkey. cbn [negb orb]. rewrite bind_ret.
  unfold existsSync. rewrite Hnone.
  rewrite (bind_val _ _ false) by reflexivity. reflexivity.
Qed.

(** X6: in every run, whatever the environment, the file, the batch size and
    the answers of the service, each upsert call names the table and the
    conflict column given on the command line and carries a run of
    consecutive records of the typed parse of the input file, in their
    order; no other table is written and no other record is sent. *)
Theorem upserts_carry_parsed_records (fuel : nat) (env : Env) (fs : FS)
    (file : string) (options : Options) :
  let records :=
    match fs (resolve file) with
    | Some (File content) =>
        data (parse_header tokenize testFloat isoDate transform content)
    | _ => []
    end in
  Forall (submits_from options records) (action fuel env fs file options).1.
Proof.
  cbv zeta.
  destruct (Js.truthy (SUPABASE_URL env)) eqn:Hurl.
  2:{ rewrite action_missing_env by (by left). repeat constructor. }
  destruct (Js.truthy (SUPABASE_KEY env)) eqn:Hkey.
  2:{ rewrite action_missing_env by (by right). repeat constructor. }
  destruct (fs (resolve file)) as [node|] eqn:Hfile.
  2:{ rewrite (action_file_missing _ _ _ _ _ Hurl Hkey Hfile).
      repeat constructor. }
  rewrite (action_started _ _ _ _ _ Hurl Hkey ltac:(by eexists)). cbn [fst].
  apply Forall_app. split; [repeat constructor|].
  destruct (createClient (supabaseUrl (configOf env options))
              (supabaseKey (configOf env options))) as [remote0|] eqn:Hclient.
  2:{ unfold upsertCsv. rewrite Hclient. repeat constructor. }
  destruct node as [|content].
  { unfold upsertCsv. rewrite Hclient. unfold readFileSync. rewrite Hfile.
    rewrite (bind_throw (emit (ReadFileSync (resolve file)) ;; throw _) _
               (String.append "cannot read " (resolve file)) eq_refl).
    repeat constructor. }
  destruct (rows tokenize content) as [|headers body] eqn:Hrows.
  { rewrite (upsertCsv_no_rows fuel fs (resolve file) content
               (configOf env options) remote0 Hclient Hfile Hrows).
    repeat constructor. }
  destruct (decide (invalidRows (validateRows headers (headers :: body)) = 0)%nat)
    as [Hgood|Hbad].
  - destruct (decide (body = [])) as [Hbody|Hbody].
    + rewrite (upsertCsv_no_data fuel fs (resolve file) content
                 (configOf env options) remote0 Hclient Hfile headers body
                 Hrows Hbody).
      cbn [fst]. apply Forall_app. split; [|repeat constructor].
      do 2 (constructor; [done|]). apply logs_submit.
    + rewrite (upsertCsv_clean_any fuel fs (resolve file) content
                 (configOf env options) remote0 headers body
                 Hclient Hfile Hrows Hgood Hbody).
      cbn [fst]. apply Forall_app. split.
      { do 2 (constructor; [done|]). apply logs_submit. }
      constructor; [done|]. apply Forall_app. split.
      * eapply loop_events_submit, batchLoop_events.
      * destruct (batchLoop _ _ _ _ _ _).2; repeat constructor.
  - rewrite (upsertCsv_abort fuel fs (resolve file) content
               (configOf env options) remote0 Hclient Hfile headers body
               Hrows ltac:(lia)).
    cbn [fst]. apply Forall_app. split; [|repeat constructor].
    do 2 (constructor; [done|]). apply logs_submit.
Qed.

(** ** Batch sizes that are not positive integers *)

(** X7: when the batch size is not a number (the option did not start with a
    digit), the loop makes exactly one upsert call, with no record in it, and
    stops; the success count stays 0 whatever the service answers. *)
Theorem nan_batch_size_one_empty_call (fuel : nat) (config : Config)
    (records : list record) (remote : Remote) :
  batchSize config = Js.NaN → records ≠ [] →
  let answer := (upsert remote (tableName config) [] (uniqueKey config)).2 in
  batchLoop (S (S fuel)) config records (Js.Fin 0) 0 remote
  = ([Upsert (tableName config) [] (uniqueKey config) answer;
      match answer with
      | Some e => Stderr (BatchError Js.NaN e)
      | None => Stdout (ProcessedBatch Js.NaN Js.NaN)
      end],
     Val 0%nat).
Proof.
  intros Hnan Hrecords. cbv zeta. cbn [batchLoop]. rewrite Hnan.
  assert (Js.lt (Js.Fin 0) (Js.Fin (Z.of_nat (length records))) = true) as ->.
  { apply bool_decide_eq_true_2. destruct records; [done|]. cbn [length]. lia. }
  assert (Js.slice records (Js.Fin 0) (Js.add (Js.Fin 0) Js.NaN) = []) as ->.
  { unfold Js.slice, Js.add, Js.rel_index.
    rewrite bool_decide_eq_false_2 by lia.
    replace (Z.to_nat (0 - _)) with 0%nat by lia. done. }
  cbn [Js.add Js.lt Js.floor_div Js.ceil_div Js.div_rounded].
  rewrite bind_emit.
  destruct (upsert remote (tableName config) [] (uniqueKey config)).2; reflexivity.
Qed.

Lemma error_ret_events {A} (m : msg) (a : A) : (error m ;; ret a).1 = [Stderr m].
Proof. reflexivity. Qed.

Lemma log_ret_events {A} (m : msg) (a : A) : (log m ;; ret a).1 = [Stdout m].
Proof. reflexivity. Qed.

Lemma batchLoop_stuck (fuel : nat) (config : Config) (records : list record)
    (b z : Z) (successCount : nat) (remote : Remote) :
  batchSize config = Js.Fin b → b ≤ 0 → z ≤ 0 → records ≠ [] →
  let loop := batchLoop fuel config records (Js.Fin z) successCount remote in
  loop.2 = Diverge ∧ length (upsert_calls loop.1) = fuel.
Proof.
  intros Hb Hneg Hz Hrecords. cbv zeta. revert z successCount remote Hz.
  induction fuel as [|fuel IH]; intros z successCount remote Hz; [done|].
  cbn [batchLoop]. rewrite Hb.
  assert (Js.lt (Js.Fin z) (Js.Fin (Z.of_nat (length records))) = true) as ->.
  { apply bool_decide_eq_true_2. destruct records; [done|]. cbn [length]. lia. }
  cbv zeta. rewrite bind_emit. cbn [fst snd Js.add].
  rewrite upsert_calls_cons. cbn [length].
  destruct (upsert remote _ _ _).2 as [e|].
  - rewrite (bind_val _ _ successCount) by reflexivity. cbn [fst snd].
    rewrite ?error_ret_events, ?log_ret_events. cbn [app].
    rewrite upsert_calls_cons.
    destruct (IH (z + b) successCount
                (upsert remote (tableName config)
                   (Js.slice records (Js.Fin z) (Js.Fin (z + b)))
                   (uniqueKey config)).1 ltac:(lia)) as [-> ->]. done.
  - rewrite (bind_val _ _ (successCount + length (Js.slice records (Js.Fin z)
      (Js.Fin (z + b))))%nat) by reflexivity. cbn [fst snd].
    rewrite ?error_ret_events, ?log_ret_events. cbn [app].
    rewrite upsert_calls_cons.
    destruct (IH (z + b) (successCount + length (Js.slice records (Js.Fin z)
                (Js.Fin (z + b))))%nat
                (upsert remote (tableName config)
                   (Js.slice records (Js.Fin z) (Js.Fin (z + b)))
                   (uniqueKey config)).1 ltac:(lia)) as [-> ->]. done.
Qed.

Lemma batchLoop_zero_batches (fuel : nat) (config : Config)
    (records : list record) (successCount : nat) (remote : Remote) :
  batchSize config = Js.Fin 0 →
  Forall (λ batch, batch = [])
    (upsert_calls (batchLoop fuel config records (Js.Fin 0) successCount remote).1).
Proof.
  intros Hb. revert successCount remote.
  induction fuel as [|fuel IH]; intros successCount remote; [constructor|].
  cbn [batchLoop]. rewrite Hb. destruct (Js.lt _ _); [|constructor].
  cbv zeta. rewrite bind_emit. cbn [fst Js.add]. rewrite upsert_calls_cons.
  change (0 + 0) with 0.
  constructor.
  { unfold Js.slice, Js.rel_index.
    rewrite bool_decide_eq_false_2 by lia.
    replace (Z.to_nat (_ - _)) with 0%nat by lia. done. }
  destruct (upsert remote _ _ _).2 as [e|].
  - rewrite (bind_val _ _ successCount) by reflexivity. cbn [fst].
    rewrite ?error_ret_events, ?log_ret_events. cbn [app].
    rewrite upsert_calls_cons. apply IH.
  - rewrite (bind_val _ _ (successCount + length (Js.slice records (Js.Fin 0)
      (Js.Fin 0)))%nat) by reflexivity. cbn [fst].
    rewrite ?error_ret_events, ?log_ret_events. cbn [app].
    rewrite upsert_calls_cons. apply IH.
Qed.

(** X8: with a batch size of 0 or below and at least one record, the loop
    never ends: however many iterations are followed, the loop is still
    running and has made one upsert call per iteration; with a batch size of
    exactly 0 every one of these calls carries no record. *)
Theorem nonpositive_batch_size_never_ends (fuel : nat) (config : Config)
    (records : list record) (b : Z) (remote : Remote) :
  batchSize config = Js.Fin b → b ≤ 0 → records ≠ [] →
  let loop := batchLoop fuel config records (Js.Fin 0) 0 remote in
  loop.2 = Diverge ∧
  length (upsert_calls loop.1) = fuel ∧
  (b = 0 → Forall (λ batch, batch = []) (upsert_calls loop.1)).
Proof.
  intros Hb Hneg Hrecords. cbv zeta.
  destruct (batchLoop_stuck fuel config records b 0 0 remote Hb Hneg
              ltac:(lia) Hrecords) as [Hd Hn].
  split; [exact Hd|]. split; [exact Hn|].
  intros ->. by apply batchLoop_zero_batches.
Qed.

(** ** The success count and the progress lines *)

Lemma accepted_le (calls : list (list record)) (answers : list (option string)) :
  (sum_list (accepted calls answers) ≤ length (concat calls))%nat.
Proof.
  revert answers. induction calls as [|batch calls IH]; intros answers.
  - by destruct answers as [|[]].
  - cbn [concat]. rewrite length_app.
    destruct answers as [|[e|] answers]; cbn [accepted sum_list_with].
    + lia.
    + specialize (IH answers). lia.
    + specialize (IH answers). change (id (length batch)) with (length batch). lia.
Qed.

Lemma accepted_all (calls : list (list record)) (answers : list (option string)) :
  length answers = length calls → Forall (λ a, a = None) answers →
  sum_list (accepted calls answers) = length (concat calls).
Proof.
  revert answers. induction calls as [|batch calls IH]; intros answers Hlen Hall.
  - by destruct answers.
  - destruct answers as [|a answers]; [done|].
    apply Forall_cons in Hall as [-> Hall]. cbn [accepted sum_list_with concat].
    rewrite length_app, IH; [done| |done]. cbn [length] in Hlen. lia.
Qed.

Lemma accepted_none (calls : list (list record)) (answers : list (option string)) :
  Forall is_Some answers → sum_list (accepted calls answers) = 0%nat.
Proof.
  revert answers. induction calls as [|batch calls IH]; intros answers Hall.
  - by destruct answers as [|[]].
  - destruct answers as [|a answers]; [done|].
    apply Forall_cons in Hall as [[e ->] Hall]. cbn [accepted]. by apply IH.
Qed.

(** X9: with a batch size of at least 1 the success count the summary gives
    is the total size of the batches the service accepted; it never exceeds
    the number of records, equals it when no call reports an error, and is 0
    when every call does. *)
Theorem success_count_bounds (fuel : nat) (config : Config)
    (records : list record) (b : Z) (remote : Remote) :
  batchSize config = Js.Fin b → 1 ≤ b →
  (batch_count (length records) b < fuel)%nat →
  let loop := batchLoop fuel config records (Js.Fin 0) 0 remote in
  ∃ successCount,
    loop.2 = Val successCount ∧
    successCount = sum_list (accepted (upsert_calls loop.1) (upsert_errors loop.1)) ∧
    (successCount ≤ length records)%nat ∧
    (Forall (λ a, a = None) (upsert_errors loop.1) →
     successCount = length records) ∧
    (Forall is_Some (upsert_errors loop.1) → successCount = 0%nat).
Proof.
  intros Hb Hpos Hfuel. cbv zeta.
  rewrite (batchLoop_start _ _ _ _ _ Hb Hpos Hfuel). cbv zeta. cbn [fst snd].
  eexists. split; [reflexivity|].
  rewrite runBatches_count, runBatches_calls. cbn [Nat.add].
  pose proof (runBatches_answers config
                (Js.ceil_div (Js.Fin (Z.of_nat (length records))) (Js.Fin b))
                (batches b records) 0 0 remote) as Hlen.
  pose proof (concat_batches records b Hpos) as Hconcat.
  split; [done|]. split; [|split].
  - etransitivity; [apply accepted_le|]. by rewrite Hconcat.
  - intros Hall. rewrite accepted_all by done. by rewrite Hconcat.
  - apply accepted_none.
Qed.

Lemma batch_numbers_cons (e : event) (t : list event) :
  batch_numbers (e :: t)
  = match e with
    | Stdout (ProcessedBatch current _) | Stderr (BatchError current _) =>
        current :: batch_numbers t
    | _ => batch_numbers t
    end.
Proof. destruct e as [[]|[]| | |]; done. Qed.

Lemma batch_totals_cons (e : event) (t : list event) :
  batch_totals (e :: t)
  = match e with
    | Stdout (ProcessedBatch _ total) => total :: batch_totals t
    | _ => batch_totals t
    end.
Proof. destruct e as [[]|[]| | |]; done. Qed.

Lemma runBatches_numbers (config : Config) (total : Js.num)
    (bs : list (list record)) (k sc : nat) (remote : Remote) :
  let t := (runBatches config total k bs sc remote).1 in
  batch_numbers t = (λ j, Js.Fin (Z.of_nat j + 1)) <$> seq k (length bs) ∧
  Forall (λ n, n = total) (batch_totals t).
Proof.
  cbv zeta. revert k sc remote.
  induction bs as [|batch bs IH]; intros k sc remote; [by split|].
  cbn [runBatches fst length seq fmap list_fmap].
  destruct (upsert remote (tableName config) batch (uniqueKey config))
    as [remote' [e|]]; cbn [fst snd];
    rewrite !batch_numbers_cons, !batch_totals_cons;
    edestruct IH as [-> Ht]; (split; [done|]); [done|by constructor].
Qed.

(** X10: with a batch size of at least 1 the line printed after the k-th
    call (progress or error) carries the batch number k, counted from 1, and
    every progress line gives [ceil(n / batchSize)] as the total. *)
Theorem progress_lines_numbered (fuel : nat) (config : Config)
    (records : list record) (b : Z) (remote : Remote) :
  batchSize config = Js.Fin b → 1 ≤ b →
  (batch_count (length records) b < fuel)%nat →
  let loop := batchLoop fuel config records (Js.Fin 0) 0 remote in
  batch_numbers loop.1
  = (λ j, Js.Fin (Z.of_nat j + 1)) <$> seq 0 (batch_count (length records) b) ∧
  Forall (λ n, n = Js.Fin (Js.ceil_quot (Z.of_nat (length records)) b))
    (batch_totals loop.1).
Proof.
  intros Hb Hpos Hfuel. cbv zeta.
  rewrite (batchLoop_start _ _ _ _ _ Hb Hpos Hfuel). cbv zeta. cbn [fst].
  destruct (runBatches_numbers config
              (Js.ceil_div (Js.Fin (Z.of_nat (length records))) (Js.Fin b))
              (batches b records) 0 0 remote) as [Hn Ht].
  rewrite length_batches in Hn. split; [exact Hn|].
  eapply Forall_impl; [exact Ht|]. intros n ->.
  unfold Js.ceil_div, Js.div_rounded. by rewrite bool_decide_eq_false_2 by lia.
Qed.

(** ** The column report *)

Lemma column_lines_cons (e : event) (t : list event) :
  column_lines (e :: t)
  = match e with
    | Stdout (Column position _ _) => (position, false) :: column_lines t
    | Stdout (ExtraColumn position _) => (position, true) :: column_lines t
    | _ => column_lines t
    end.
Proof. destruct e as [[]| | | |]; done. Qed.

Lemma column_lines_columns (headers row : RawRow) (l : list nat) (t : list event) :
  column_lines (map Stdout (map (columnLine headers row) l) ++ t)
  = ((λ j, (S j, bool_decide (length headers ≤ j)%nat)) <$> l) ++ column_lines t.
Proof.
  induction l as [|j l IH]; [done|]. cbn [map app fmap list_fmap].
  rewrite column_lines_cons. unfold columnLine at 1.
  destruct (bool_decide (length headers ≤ j)%nat); by rewrite IH.
Qed.

(** X12: the detailed report of a problem row has one column line for each
    position up to the longer of header and row, numbered from 1 in order;
    the line is an extra-column line exactly for the positions beyond the
    header.  A header cell the row has no cell for is shown with the marker
    for an empty value, and a non-empty cell beyond the header is shown, as
    the quote-stripping replace leaves it, as an extra column. *)
Theorem problem_row_columns (headers : RawRow) (rows : list RawRow) (i : nat)
    (row : RawRow) :
  rows !! i = Some row →
  let run := showProblemRow headers rows i in
  run.2 = Val tt ∧
  column_lines run.1
  = (λ j, (S j, bool_decide (length headers ≤ j)%nat))
      <$> seq 0 (length headers `max` length row) ∧
  (∀ j h, headers !! j = Some h → (length row ≤ j)%nat →
     Stdout (Column (S j) (if Js.truthy (Some h) then stripQuotes h else "EXTRA")
               "(empty)") ∈ run.1) ∧
  (∀ j c v, row !! j = Some (String c v) → (length headers ≤ j)%nat →
     Stdout (ExtraColumn (S j) (stripQuotes (String c v))) ∈ run.1).
Proof.
  intros Hrow. cbv zeta. rewrite (showProblemRow_run _ _ _ _ Hrow).
  cbn [fst snd]. split; [done|]. unfold rowReport. split; [|split].
  - cbn [app map]. rewrite !column_lines_cons, map_app, column_lines_columns.
    cbn [map]. rewrite !column_lines_cons. by rewrite app_nil_r.
  - intros j h Hh Hj. apply list_elem_of_fmap. eexists. split; [reflexivity|].
    apply elem_of_app. right. apply elem_of_app. left.
    apply list_elem_of_fmap. exists j. split.
    + unfold columnLine. rewrite Hh, (lookup_ge_None_2 row j) by done.
      cbn [Js.truthy default from_option id].
      apply lookup_lt_Some in Hh.
      by rewrite bool_decide_eq_false_2 by lia.
    + apply elem_of_seq. apply lookup_lt_Some in Hh. lia.
  - intros j c v Hv Hj. apply list_elem_of_fmap. eexists. split; [reflexivity|].
    apply elem_of_app. right. apply elem_of_app. left.
    apply list_elem_of_fmap. exists j. split.
    + unfold columnLine. rewrite Hv. cbn [Js.truthy default from_option id].
      by rewrite bool_decide_eq_true_2 by done.
    + apply elem_of_seq. apply lookup_lt_Some in Hv. lia.
Qed.

(** ** The analysis report and the order of effects *)

(** X15: for a file with a header row the analysis never fails: it returns,
    after printing the number of rows and the number of valid rows; valid
    and invalid rows together are the data rows, the invalid-row line is
    printed exactly when there is an invalid row, and at most three rows are
    shown in detail. *)
Theorem analysis_totals (fs : FS) (parseResult : ParseResult record)
    (filePath content : string) (headers : RawRow) (body : list RawRow) :
  fs filePath = Some (File content) →
  rows tokenize content = headers :: body →
  let run := analyzeErrors fs parseResult filePath in
  let a := validateRows headers (headers :: body) in
  (∃ after, run.2 = Val after) ∧
  (validRows a + invalidRows a = length body)%nat ∧
  Stdout (TotalRows (S (length body))) ∈ run.1 ∧
  Stdout (ValidRows (validRows a)) ∈ run.1 ∧
  (Stdout (InvalidRows (invalidRows a)) ∈ run.1 ↔ (0 < invalidRows a)%nat) ∧
  (length (reported_rows run.1) ≤ 3)%nat.
Proof.
  intros Hfile Hrows. cbv zeta.
  rewrite (analyzeErrors_run fs parseResult filePath content headers body
             Hfile Hrows).
  cbn [fst snd]. split; [by eexists|].
  pose proof (validateRows_spec headers body) as Hspec. cbv zeta in Hspec.
  pose proof (mismatched_from_length headers 1 body) as Hle.
  rewrite <- mismatched_cons in Hle.
  split; [rewrite Hspec; cbn [validRows invalidRows]; lia|].
  unfold analysisReport. cbv zeta. cbn [map app length].
  split; [do 3 right; left|]. split; [do 4 right; left|]. split.
  - rewrite !elem_of_cons. case_bool_decide as Hk.
    + split; [done|]. intros _. do 5 right. left.
    + split; [|lia]. intros [H|[H|[H|[H|[H|H]]]]]; try done.
      cbn in H. by apply elem_of_nil in H.
  - rewrite !reported_rows_cons.
    change (?x :: ?y :: ?z :: ?w :: map Stdout ?l)
      with (map Stdout (CsvStructure :: ExpectedColumns (length headers)
              :: TotalRows (S (length body))
              :: ValidRows (validRows (validateRows headers (headers :: body)))
              :: l)).
    case_bool_decide as Hk; [|cbn; lia].
    cbn [map app]. rewrite !reported_rows_cons, reported_rows_reports.
    rewrite Hspec. cbn [problemRows]. rewrite length_take. lia.
Qed.

(** X16: in a run that gets as far as parsing, all file access comes before
    the first upsert call: the trace splits into a part without upsert calls
    and a part without file access, whatever the batch size and however long
    the loop is followed. *)
Theorem file_access_precedes_upserts (fuel : nat) (env : Env) (fs : FS)
    (file content : string) (options : Options) :
  ready env fs file content →
  ∃ before after,
    (action fuel env fs file options).1 = before ++ after ∧
    upsert_calls before = [] ∧
    List.filter is_file_io after = [].
Proof.
  intros Hready. rewrite (action_ready _ _ _ _ _ _ Hready).
  destruct Hready as (_ & _ & Hfile & [remote0 Hclient]). cbn [fst].
  assert (∀ t, upsert_calls t = [] →
               ∃ before after, preamble file options ++ t = before ++ after ∧
                 upsert_calls before = [] ∧ List.filter is_file_io after = [])
    as Hquiet.
  { intros t Ht. exists (preamble file options ++ t), [].
    split; [by rewrite app_nil_r|]. split; [|done].
    by rewrite upsert_calls_app, Ht. }
  destruct (rows tokenize content) as [|headers body] eqn:Hrows.
  { rewrite (upsertCsv_no_rows fuel fs (resolve file) content
               (configOf env options) remote0 Hclient Hfile Hrows).
    by apply Hquiet. }
  destruct (decide (invalidRows (validateRows headers (headers :: body)) = 0)%nat)
    as [Hgood|Hbad].
  - destruct (decide (body = [])) as [Hbody|Hbody].
    + rewrite (upsertCsv_no_data fuel fs (resolve file) content
                 (configOf env options) remote0 Hclient Hfile headers body
                 Hrows Hbody).
      apply Hquiet. cbn [fst]. rewrite upsert_calls_app, !upsert_calls_cons.
      by rewrite upsert_calls_logs.
    + rewrite (upsertCsv_clean_any fuel fs (resolve file) content
                 (configOf env options) remote0 headers body
                 Hclient Hfile Hrows Hgood Hbody).
      cbn [fst]. eexists (preamble file options ++ _), _.
      split; [by rewrite <- app_assoc|]. split.
      * rewrite upsert_calls_app. cbn [preamble].
        rewrite !upsert_calls_cons, upsert_calls_logs. done.
      * cbn [List.filter is_file_io]. rewrite List.filter_app.
        rewrite (loop_events_no_io _ _ _ (batchLoop_events _ _ _ _ _ _)).
        by destruct (batchLoop _ _ _ _ _ _).2.
  - rewrite (upsertCsv_abort fuel fs (resolve file) content
               (configOf env options) remote0 Hclient Hfile headers body
               Hrows ltac:(lia)).
    apply Hquiet. cbn [fst]. rewrite upsert_calls_app, !upsert_calls_cons.
    by rewrite upsert_calls_logs.
Qed.

End Program.

(** * The scenarios of the specification, run on the small instance *)

(** A run of the tool on the file made of [lines], the calls numbered in
    [failing] being answered with an error. *)
Abbreviation scenario_run failing fuel env lines batch :=
  (action Demo.tokenize Demo.testFloat Demo.isoDate Demo.resolve nat
     Demo.createClient (Demo.upsert failing) fuel env
     (Demo.fs Demo.csv (Demo.file_of lines)) "data.csv" (Demo.options batch)).

Abbreviation scenario_typed lines :=
  (parse_header Demo.tokenize Demo.testFloat Demo.isoDate transform
     (Demo.file_of lines)).

Abbreviation scenario_ready_for lines :=
  (ready Demo.resolve nat Demo.createClient Demo.env
     (Demo.fs Demo.csv (Demo.file_of lines)) "data.csv" (Demo.file_of lines)).

Lemma scenario_ready (lines : list string) : scenario_ready_for lines.
Proof.
  unfold ready. repeat split; try reflexivity.
  by eexists.
Defined.

Lemma structural_mismatch_aborts_witness :
  scenario_ready_for Demo.short_row ∧
  rows Demo.tokenize (Demo.file_of Demo.short_row)
    = ["a"; "b"; "c"] :: [["1"; "2"]] ∧
  mismatched ["a"; "b"; "c"] [["a"; "b"; "c"]; ["1"; "2"]] = [1%nat] ∧
  let run := scenario_run [] 10 Demo.env Demo.short_row "50" in
  run.2 = Halt 1 ∧ upsert_calls run.1 = [] ∧ reported_rows run.1 = [1%nat].
Proof.
  split; [apply scenario_ready|]. split; [reflexivity|]. split; [reflexivity|].
  destruct (structural_mismatch_aborts Demo.tokenize Demo.testFloat Demo.isoDate
              Demo.resolve nat Demo.createClient (Demo.upsert []) 10 Demo.env
              (Demo.fs Demo.csv (Demo.file_of Demo.short_row)) "data.csv"
              (Demo.file_of Demo.short_row) (Demo.options "50")
              ["a"; "b"; "c"] [["1"; "2"]]
              (scenario_ready Demo.short_row) eq_refl
              ltac:(discriminate))
    as (Hhalt & _ & Hcalls & Hrows & _).
  exact (conj Hhalt (conj Hcalls Hrows)).
Defined.

Lemma missing_env_exits_before_io_witness :
  let env := mkEnv None (Some "secret") in
  SUPABASE_URL env = None ∧
  scenario_run [] 10 env Demo.short_row "50" = ([Stderr MissingEnv], Halt 1).
Proof.
  split; [reflexivity|].
  exact (proj1 (missing_env_exits_before_io Demo.tokenize Demo.testFloat
                  Demo.isoDate Demo.resolve nat Demo.createClient (Demo.upsert [])
                  10 (mkEnv None (Some "secret"))
                  (Demo.fs Demo.csv (Demo.file_of Demo.short_row))
                  "data.csv" (Demo.options "50") (or_introl eq_refl))).
Defined.

Lemma batching_partitions_witness :
  let config := mkConfig "u" "k" "contacts" "email" (Js.Fin 2) in
  let records := replicate 5 (∅ : gmap string value) in
  batchSize config = Js.Fin 2 ∧ 1 ≤ 2 ∧ (batch_count (length records) 2 < 4)%nat ∧
  let calls :=
    upsert_calls (batchLoop nat (Demo.upsert []) 4 config records (Js.Fin 0) 0 0%nat).1 in
  Z.of_nat (length calls) = 3 ∧ concat calls = records.
Proof.
  cbv zeta. split; [reflexivity|]. split; [lia|].
  assert (batch_count 5 2 < 4)%nat as Hfuel by (vm_compute; lia).
  split; [exact Hfuel|].
  destruct (batching_partitions nat (Demo.upsert []) 4
              (mkConfig "u" "k" "contacts" "email" (Js.Fin 2))
              (replicate 5 (∅ : gmap string value)) 2 0%nat
              eq_refl ltac:(lia) Hfuel) as (Hcount & Hconcat & _).
  exact (conj Hcount Hconcat).
Defined.

Lemma batch_errors_tolerated_witness :
  scenario_ready_for Demo.many ∧
  rows Demo.tokenize (Demo.file_of Demo.many) = ["id"] :: replicate 125 ["x"] ∧
  mismatched ["id"] (["id"] :: replicate 125 ["x"]) = [] ∧
  Js.parseInt "50" = Js.Fin 50 ∧
  let run := scenario_run [1%nat] 10 Demo.env Demo.many "50" in
  length <$> upsert_calls run.1 = [50; 50; 25]%nat ∧
  last run.1 = Some (Stdout (Summary 75 125)) ∧
  exit_status run.2 = Some 0%nat.
Proof.
  assert (rows Demo.tokenize (Demo.file_of Demo.many)
          = ["id"] :: replicate 125 ["x"]) as Hrows by (vm_compute; reflexivity).
  assert (mismatched ["id"] (["id"] :: replicate 125 ["x"]) = []) as Hgood
    by (vm_compute; reflexivity).
  assert (batch_count (length (replicate 125 ["x"])) 50 < 10)%nat as Hfuel
    by (vm_compute; lia).
  split; [apply scenario_ready|]. split; [exact Hrows|]. split; [exact Hgood|].
  split; [reflexivity|].
  destruct (batch_errors_tolerated Demo.tokenize Demo.testFloat Demo.isoDate
              Demo.resolve nat Demo.createClient (Demo.upsert [1%nat]) 10 Demo.env
              (Demo.fs Demo.csv (Demo.file_of Demo.many)) "data.csv"
              (Demo.file_of Demo.many) (Demo.options "50")
              ["id"] (replicate 125 ["x"]) 50
              (scenario_ready Demo.many) Hrows ltac:(discriminate) Hgood
              eq_refl ltac:(lia) Hfuel)
    as (_ & _ & _ & _ & Hexit & Hcase).
  destruct (Hcase ltac:(vm_compute; reflexivity) eq_refl) as (Hsizes & Hsummary).
  split; [exact Hsizes|]. split; [|exact Hexit].
  apply (Hsummary "rejected"). vm_compute. reflexivity.
Defined.

Lemma clean_structure_clears_errors_witness :
  scenario_ready_for Demo.quoted ∧
  errors (scenario_typed Demo.quoted) = [mkError "Quotes" "InvalidQuotes" 1] ∧
  let run := scenario_run [] 10 Demo.env Demo.quoted "50" in
  run.2 = Val tt ∧ upsert_calls run.1 = [data (scenario_typed Demo.quoted)].
Proof.
  split; [apply scenario_ready|]. split; [vm_compute; reflexivity|].
  destruct (clean_structure_clears_errors Demo.tokenize Demo.testFloat
              Demo.isoDate Demo.resolve nat Demo.createClient (Demo.upsert [])
              Demo.env (Demo.fs Demo.csv (Demo.file_of Demo.quoted))
              "data.csv" (Demo.file_of Demo.quoted) (Demo.options "50")
              ["a"; "b"] [["1"; String (ascii_of_nat 34) "x"]]
              (scenario_ready Demo.quoted)
              ltac:(vm_compute; reflexivity) ltac:(vm_compute; reflexivity))
    as (_ & Hrun).
  destruct (Hrun 50 10%nat eq_refl ltac:(lia) ltac:(vm_compute; lia))
    as (Hval & _ & Hcalls).
  split; [exact Hval|].
  etransitivity; [exact Hcalls | vm_compute; reflexivity].
Defined.

Lemma no_records_outcome_witness :
  scenario_ready_for Demo.header_only ∧
  data (scenario_typed Demo.header_only) = [] ∧
  let run := scenario_run [] 10 Demo.env Demo.header_only "50" in
  upsert_calls run.1 = [].
Proof.
  split; [apply scenario_ready|]. split; [reflexivity|].
  exact (proj1 (no_records_outcome Demo.tokenize Demo.testFloat Demo.isoDate
                  Demo.resolve nat Demo.createClient (Demo.upsert []) 10 Demo.env
                  (Demo.fs Demo.csv (Demo.file_of Demo.header_only))
                  "data.csv" (Demo.file_of Demo.header_only)
                  (Demo.options "50")
                  (scenario_ready Demo.header_only) eq_refl)).
Defined.

Lemma batch_loop_terminates_witness :
  let config := mkConfig "u" "k" "contacts" "email" (Js.Fin 2) in
  let records := replicate 5 (∅ : gmap string value) in
  batchSize config = Js.Fin 2 ∧ 1 ≤ 2 ∧
  (batchLoop nat (Demo.upsert []) 3 config records (Js.Fin 0) 0 0%nat).2 = Diverge ∧
  length (upsert_calls
            (batchLoop nat (Demo.upsert []) 4 config records (Js.Fin 0) 0 0%nat).1)
  = 3%nat.
Proof.
  cbv zeta. split; [reflexivity|]. split; [lia|].
  destruct (batch_loop_terminates Demo.tokenize Demo.testFloat Demo.isoDate nat
              Demo.createClient (Demo.upsert [])
              (mkConfig "u" "k" "contacts" "email" (Js.Fin 2))
              (replicate 5 (∅ : gmap string value)) 2 0%nat eq_refl ltac:(lia))
    as (_ & Hshort & Hlong & _).
  split.
  - apply (Hshort 3%nat). vm_compute. lia.
  - exact (proj1 (proj2 (Hlong 4%nat ltac:(vm_compute; lia)))).
Defined.

Lemma structural_counts_witness :
  ∃ a, analyze [["a"; "b"; "c"]; ["1"; "2"]; ["1"; "2"; "3"]; ["1"];
                ["1"; "2"; "3"; "4"]; []; ["x"; "y"; "z"]] = Some a ∧
       invalidRows a = 4%nat ∧ validRows a = 2%nat ∧
       problemRows a = [1; 3; 4]%nat.
Proof.
  destruct (structural_counts ["a"; "b"; "c"]
              [["1"; "2"]; ["1"; "2"; "3"]; ["1"]; ["1"; "2"; "3"; "4"]; [];
               ["x"; "y"; "z"]])
    as (_ & a & Ha & Hinvalid & Hvalid & Hproblems & _).
  exists a. exact (conj Ha (conj Hinvalid (conj Hvalid Hproblems))).
Defined.


Lemma records_not_mutated_witness :
  let run := scenario_run [] 10 Demo.env Demo.two_records "50" in
  run.2 = Val tt ∧
  concat (upsert_calls run.1) = data (scenario_typed Demo.two_records).
Proof.
  destruct (records_not_mutated Demo.tokenize Demo.testFloat Demo.isoDate
              Demo.resolve nat Demo.createClient (Demo.upsert []))
    as (_ & Hrun).
  destruct (Hrun 10%nat Demo.env (Demo.fs Demo.csv (Demo.file_of Demo.two_records))
              "data.csv" (Demo.file_of Demo.two_records) (Demo.options "50") 50
              (scenario_ready Demo.two_records) eq_refl ltac:(lia)
              ltac:(vm_compute; lia))
    as [Hsent | [Hhalt _]].
  - exact Hsent.
  - vm_compute in Hhalt. discriminate Hhalt.
Defined.

(** C3, as the specification words its example: with 125 records in batches
    of 50 and the second call failing, the summary counts 75 records, not
    100. *)
Lemma second_batch_fails_counts_75 :
  let run := scenario_run [1%nat] 10 Demo.env Demo.many "50" in
  length (data (scenario_typed Demo.many)) = 125%nat ∧
  length <$> upsert_calls run.1 = [50; 50; 25]%nat ∧
  upsert_errors run.1 = [None; Some "rejected"; None] ∧
  last run.1 = Some (Stdout (Summary 75 125)) ∧
  last run.1 ≠ Some (Stdout (Summary 100 125)) ∧
  exit_status run.2 = Some 0%nat.
Proof. vm_compute. repeat split; try reflexivity. discriminate. Qed.

(** C4, as the specification words it: a file with a header row and no data
    row yields no record, and the process ends with status 0, not 1. *)
Lemma header_only_exits_0 :
  let run := scenario_run [] 10 Demo.env Demo.header_only "50" in
  data (scenario_typed Demo.header_only) = [] ∧
  run.2 = Val tt ∧
  exit_status run.2 = Some 0%nat ∧
  exit_status run.2 ≠ Some 1%nat.
Proof. vm_compute. repeat split; try reflexivity. discriminate. Qed.

(** ** Further checks on concrete inputs *)

Example parseInt_default : Js.parseInt "50" = Js.Fin 50.
Proof. reflexivity. Qed.

Example parseInt_prefix : Js.parseInt "  -12px" = Js.Fin (-12).
Proof. reflexivity. Qed.

Example parseInt_no_digit : Js.parseInt "abc" = Js.NaN.
Proof. reflexivity. Qed.

Example slice_past_end :
  Js.slice [1; 2; 3; 4; 5]%nat (Js.Fin 4) (Js.Fin 6) = [5]%nat.
Proof. reflexivity. Qed.

Example slice_from_end :
  Js.slice [1; 2; 3; 4; 5]%nat (Js.Fin 0) (Js.Fin (-2)) = [1; 2; 3]%nat.
Proof. reflexivity. Qed.

Example stripQuotes_pair :
  stripQuotes (String dquote (String.append "name" (String dquote ""))) = "name".
Proof. reflexivity. Qed.

Example stripQuotes_plain : stripQuotes "name" = "name".
Proof. reflexivity. Qed.

Example stripQuotes_inner_quotes :
  stripQuotes (Demo.in_quotes (Demo.in_quotes "name")) = Demo.in_quotes "name".
Proof. reflexivity. Qed.

(** A quoted value that holds a line feed or the line separator U+2028 is not
    one line, and keeps its quotes. *)
Example stripQuotes_line_feed :
  let s :=
    Demo.in_quotes (String.append "first" (String.append Demo.newline "second")) in
  stripQuotes s = s.
Proof. reflexivity. Qed.

Example stripQuotes_line_separator :
  let s :=
    Demo.in_quotes
      (String.append "first" (String.append Demo.line_separator "second")) in
  stripQuotes s = s.
Proof. reflexivity. Qed.

(** An empty cell under a column, an empty cell beyond the header, and a
    column named [__proto__], which leaves no field in the row. *)
Example empty_cells_typed :
  data (scenario_typed ["a,b"; "1,,"])
  = [{["a" := Cell (Num "1"); "b" := Cell Null;
       parsed_extra := Extra [Null]]}] ∧
  data (scenario_typed ["__proto__,b"; ",3"]) = [{["b" := Cell (Num "3")]}].
Proof. split; vm_compute; reflexivity. Qed.

(** Scenario A: two records and a batch size of 50 make one call with both
    records, and the summary reads 2 of 2. *)
Example two_records_one_batch :
  let run := scenario_run [] 10 Demo.env Demo.two_records "50" in
  length <$> upsert_calls run.1 = [2%nat] ∧
  last run.1 = Some (Stdout (Summary 2 2)) ∧
  run.2 = Val tt.
Proof. vm_compute. repeat split; reflexivity. Qed.

(** Scenario B: a header of three cells and one data row of two. *)
Example short_row_report :
  analyze [["a"; "b"; "c"]; ["1"; "2"]] = Some (mkAnalysis 0 1 [1%nat]) ∧
  let run := scenario_run [] 10 Demo.env Demo.short_row "50" in
  run.2 = Halt 1 ∧ upsert_calls run.1 = [] ∧
  List.filter (λ e, match e with Stdout (Column _ _ _) => true | _ => false end)
    run.1
  = [Stdout (Column 1 "a" "1"); Stdout (Column 2 "b" "2");
     Stdout (Column 3 "c" "(empty)")].
Proof. vm_compute. repeat split; reflexivity. Qed.

(** A batch size that is not a number: one call with no record, then the
    summary. *)
Example batch_size_nan :
  let run := scenario_run [] 10 Demo.env Demo.two_records "fifty" in
  length <$> upsert_calls run.1 = [0%nat] ∧
  last run.1 = Some (Stdout (Summary 0 2)).
Proof. vm_compute. split; reflexivity. Qed.

(** A batch size of 0: the loop makes no progress. *)
Example batch_size_zero :
  (scenario_run [] 10 Demo.env Demo.two_records "0").2 = Diverge.
Proof. vm_compute. reflexivity. Qed.

(** * The first version of the tool

    The repository keeps the tool as it was before the structural analysis
    was added (the earlier index.ts and its compiled copy).  Its [upsertCsv]
    parses the file once, with the delimiter left to papaparse and without a
    [transform]; any parse error makes it print the errors and return. *)

Module Legacy.

Inductive msg : Type :=
| MissingEnv
| FileNotFound (filePath : string)
| UpsertingFrom (filePath tableName : string)
| UsingKey (uniqueKey : string)
| ParsingErrors (errors : list ParseError)
| FoundRecords (n : nat)
| BatchError (currentBatch : Js.num) (error : string)
| ProcessedBatch (currentBatch totalBatches : Js.num)
| Summary (successCount total : nat)
| ProcessingError (message : string).

Inductive event : Type :=
| Stdout (m : msg)
| Stderr (m : msg)
| ExistsSync (filePath : string)
| ReadFileSync (filePath : string)
| Upsert (tableName : string) (batch : list record) (onConflict : string)
    (error : option string).

Definition M (A : Type) : Type := list event * res A.

Definition ret {A} (a : A) : M A := ([], Val a).

Definition bind {A B} (m : M A) (f : A → M B) : M B :=
  match m.2 with
  | Val a => let r := f a in (m.1 ++ r.1, r.2)
  | Throw e => (m.1, Throw e)
  | Halt n => (m.1, Halt n)
  | Diverge => (m.1, Diverge)
  end.

Declare Scope legacy_scope.
Notation "'let*' x ':=' m 'in' k" := (bind m (λ x, k))
  (at level 10, x name, m at level 100, k at level 200) : legacy_scope.
Notation "m ';;' k" := (bind m (λ _, k))
  (at level 100, k at level 200, right associativity) : legacy_scope.
Local Open Scope legacy_scope.

Definition emit (e : event) : M unit := ([e], Val tt).
Definition log (m : msg) : M unit := emit (Stdout m).
Definition error (m : msg) : M unit := emit (Stderr m).
Definition throw {A} (message : string) : M A := ([], Throw message).
Definition process_exit {A} (status : nat) : M A := ([], Halt status).

Definition try_catch {A} (m : M A) (h : string → M A) : M A :=
  match m.2 with
  | Throw e => let r := h e in (m.1 ++ r.1, r.2)
  | _ => m
  end.

Definition upsert_calls (t : list event) : list (list record) :=
  omap (λ e, match e with Upsert _ batch _ _ => Some batch | _ => None end) t.

Definition upsert_errors (t : list event) : list (option string) :=
  omap (λ e, match e with Upsert _ _ _ err => Some err | _ => None end) t.

Definition existsSync (fs : FS) (filePath : string) : M bool :=
  emit (ExistsSync filePath) ;; ret (bool_decide (is_Some (fs filePath))).

Definition readFileSync (fs : FS) (filePath : string) : M string :=
  emit (ReadFileSync filePath) ;;
  match fs filePath with
  | Some (File content) => ret content
  | _ => throw (String.append "cannot read " filePath)
  end.

Section Program.

(** The tokenizer with the delimiter guessed from the text. *)
Variable tokenizeAuto : string → list (list string) * list ParseError.
Variable testFloat : string → bool.
Variable isoDate : string → bool.
Variable resolve : string → string.
Variable Remote : Type.
Variable createClient : string → string → option Remote.
Variable upsert :
  Remote → string → list record → string → Remote * option string.

(** [Papa.parse(csvFile, { header: true, skipEmptyLines: true,
    dynamicTyping: true })]: no transform, the cells go to dynamic typing as
    they are. *)
Definition parse (csvFile : string) : ParseResult (gmap string value) :=
  parse_header tokenizeAuto testFloat isoDate Some csvFile.

Fixpoint batchLoop (fuel : nat) (config : Config) (data : list record)
    (i : Js.num) (successCount : nat) (remote : Remote) : M nat :=
  match fuel with
  | O => ([], Diverge)
  | S fuel' =>
      if Js.lt i (Js.Fin (Z.of_nat (length data)))
      then
        let batch := Js.slice data i (Js.add i (batchSize config)) in
        let currentBatch :=
          Js.add (Js.floor_div i (batchSize config)) (Js.Fin 1) in
        let totalBatches :=
          Js.ceil_div (Js.Fin (Z.of_nat (length data))) (batchSize config) in
        let answer := upsert remote (tableName config) batch (uniqueKey config) in
        let remote' := answer.1 in
        let err := answer.2 in
        emit (Upsert (tableName config) batch (uniqueKey config) err) ;;
        let* successCount' :=
          match err with
          | Some e => error (BatchError currentBatch e) ;; ret successCount
          | None =>
              log (ProcessedBatch currentBatch totalBatches) ;;
              ret (successCount + length batch)%nat
          end in
        batchLoop fuel' config data (Js.add i (batchSize config))
          successCount' remote'
      else ret successCount
  end.

Definition upsertCsv (fuel : nat) (fs : FS) (filePath : string)
    (config : Config) : M unit :=
  try_catch
    (match createClient (supabaseUrl config) (supabaseKey config) with
     | None => throw "createClient failed"
     | Some supabase =>
         let* csvFile := readFileSync fs filePath in
         let parsed := parse csvFile in
         if bool_decide (0 < length (errors parsed))%nat
         then error (ParsingErrors (errors parsed)) ;; ret tt
         else
           log (FoundRecords (length (data parsed))) ;;
           let* successCount :=
             batchLoop fuel config (data parsed) (Js.Fin 0) 0 supabase in
           log (Summary successCount (length (data parsed)))
     end)
    (λ message, error (ProcessingError message) ;; process_exit 1).

Definition action (fuel : nat) (env : Env) (fs : FS) (file : string)
    (options : Options) : M unit :=
  let supabaseUrl := SUPABASE_URL env in
  let supabaseKey := SUPABASE_KEY env in
  (if negb (Js.truthy supabaseUrl) || negb (Js.truthy supabaseKey)
   then error MissingEnv ;; process_exit 1
   else ret tt) ;;
  let config :=
    mkConfig (default "" supabaseUrl) (default "" supabaseKey)
      (opt_table options) (opt_id options) (Js.parseInt (opt_batch options)) in
  let filePath := resolve file in
  let* found := existsSync fs filePath in
  (if found : bool then ret tt
   else error (FileNotFound filePath) ;; process_exit 1) ;;
  log (UpsertingFrom filePath (tableName config)) ;;
  log (UsingKey (uniqueKey config)) ;;
  upsertCsv fuel fs filePath config.

End Program.

End Legacy.

(** ** Properties of the first version *)

Section LegacyProperties.

Variable tokenizeAuto : string → list (list string) * list ParseError.
Variable testFloat : string → bool.
Variable isoDate : string → bool.
Variable resolve : string → string.
Variable Remote : Type.
Variable createClient : string → string → option Remote.
Variable upsert :
  Remote → string → list record → string → Remote * option string.

Lemma legacy_bind_emit {B} (e : Legacy.event) (k : unit → Legacy.M B) :
  Legacy.bind (Legacy.emit e) k = (e :: (k tt).1, (k tt).2).
Proof. reflexivity. Qed.

Lemma legacy_bind_val {A B} (m : Legacy.M A) (k : A → Legacy.M B) (a : A) :
  m.2 = Val a → Legacy.bind m k = (m.1 ++ (k a).1, (k a).2).
Proof. intros H. unfold Legacy.bind. by rewrite H. Qed.

Lemma legacy_bind_diverge {A B} (m : Legacy.M A) (k : A → Legacy.M B) :
  m.2 = Diverge → Legacy.bind m k = (m.1, Diverge).
Proof. intros H. unfold Legacy.bind. by rewrite H. Qed.

Lemma legacy_calls_cons (e : Legacy.event) (t : list Legacy.event) :
  Legacy.upsert_calls (e :: t)
  = match e with
    | Legacy.Upsert _ batch _ _ => batch :: Legacy.upsert_calls t
    | _ => Legacy.upsert_calls t
    end.
Proof. by destruct e. Qed.

Lemma legacy_errors_cons (e : Legacy.event) (t : list Legacy.event) :
  Legacy.upsert_errors (e :: t)
  = match e with
    | Legacy.Upsert _ _ _ err => err :: Legacy.upsert_errors t
    | _ => Legacy.upsert_errors t
    end.
Proof. by destruct e. Qed.

Lemma legacy_calls_app (t u : list Legacy.event) :
  Legacy.upsert_calls (t ++ u) = Legacy.upsert_calls t ++ Legacy.upsert_calls u.
Proof. apply omap_app. Qed.

Lemma legacy_errors_app (t u : list Legacy.event) :
  Legacy.upsert_errors (t ++ u)
  = Legacy.upsert_errors t ++ Legacy.upsert_errors u.
Proof. apply omap_app. Qed.

(** The loop is the one of the present version: same calls, same answers,
    same outcome, for any batch size. *)
Lemma legacy_batchLoop_same (fuel : nat) (config : Config) (data : list record)
    (i : Js.num) (successCount : nat) (remote : Remote) :
  let old := Legacy.batchLoop Remote upsert fuel config data i successCount remote in
  let new := batchLoop Remote upsert fuel config data i successCount remote in
  Legacy.upsert_calls old.1 = upsert_calls new.1 ∧
  Legacy.upsert_errors old.1 = upsert_errors new.1 ∧
  old.2 = new.2.
Proof.
  cbv zeta. revert i successCount remote.
  induction fuel as [|fuel IH]; intros i successCount remote; [done|].
  cbn [Legacy.batchLoop batchLoop]. destruct (Js.lt _ _); [|done].
  cbv zeta. rewrite legacy_bind_emit, bind_emit. cbn [fst snd].
  rewrite legacy_calls_cons, legacy_errors_cons, upsert_calls_cons,
    upsert_errors_cons.
  destruct (upsert remote _ _ _).2 as [e|].
  - rewrite (legacy_bind_val _ _ successCount) by reflexivity.
    rewrite (bind_val _ _ successCount) by reflexivity. cbn [fst snd].
    rewrite error_ret_events.
    change ((Legacy.bind (Legacy.error _) _).1) with
      [Legacy.Stderr (Legacy.BatchError
         (Js.add (Js.floor_div i (batchSize config)) (Js.Fin 1)) e)].
    cbn [app]. rewrite legacy_calls_cons, legacy_errors_cons,
      upsert_calls_cons, upsert_errors_cons.
    edestruct IH as (-> & -> & ->). done.
  - rewrite (legacy_bind_val _ _ (successCount + length (Js.slice data i
      (Js.add i (batchSize config))))%nat) by reflexivity.
    rewrite (bind_val _ _ (successCount + length (Js.slice data i
      (Js.add i (batchSize config))))%nat) by reflexivity. cbn [fst snd].
    rewrite log_ret_events.
    change ((Legacy.bind (Legacy.log _) _).1) with
      [Legacy.Stdout (Legacy.ProcessedBatch
         (Js.add (Js.floor_div i (batchSize config)) (Js.Fin 1))
         (Js.ceil_div (Js.Fin (Z.of_nat (length data))) (batchSize config)))].
    cbn [app]. rewrite legacy_calls_cons, legacy_errors_cons,
      upsert_calls_cons, upsert_errors_cons.
    edestruct IH as (-> & -> & ->). done.
Qed.

Lemma legacy_action_started (fuel : nat) (env : Env) (fs : FS) (file : string)
    (options : Options) :
  Js.truthy (SUPABASE_URL env) = true →
  Js.truthy (SUPABASE_KEY env) = true →
  is_Some (fs (resolve file)) →
  let inner :=
    Legacy.upsertCsv tokenizeAuto testFloat isoDate Remote createClient upsert
      fuel fs (resolve file) (configOf env options) in
  Legacy.action tokenizeAuto testFloat isoDate resolve Remote createClient
    upsert fuel env fs file options
  = (Legacy.ExistsSync (resolve file)
       :: Legacy.Stdout (Legacy.UpsertingFrom (resolve file) (opt_table options))
       :: Legacy.Stdout (Legacy.UsingKey (opt_id options)) :: inner.1,
     inner.2).
Proof.
  intros Hurl Hkey Hfile. cbv zeta. unfold Legacy.action. cbv zeta.
  rewrite Hurl, Hkey. cbn [negb orb].
  rewrite (legacy_bind_val (Legacy.ret tt) _ tt eq_refl). cbn [fst snd app Legacy.ret].
  unfold Legacy.existsSync.
  rewrite (legacy_bind_val _ _ true)
    by (cbn; f_equal; by apply bool_decide_eq_true_2).
  rewrite (legacy_bind_val (Legacy.ret tt) _ tt eq_refl).
  reflexivity.
Qed.

Lemma legacy_upsertCsv_errors (fuel : nat) (fs : FS) (filePath content : string)
    (config : Config) (remote0 : Remote) :
  createClient (supabaseUrl config) (supabaseKey config) = Some remote0 →
  fs filePath = Some (File content) →
  errors (Legacy.parse tokenizeAuto testFloat isoDate content) ≠ [] →
  Legacy.upsertCsv tokenizeAuto testFloat isoDate Remote createClient upsert
    fuel fs filePath config
  = ([Legacy.ReadFileSync filePath;
      Legacy.Stderr (Legacy.ParsingErrors
                       (errors (Legacy.parse tokenizeAuto testFloat isoDate content)))],
     Val tt).
Proof.
  intros Hclient Hfile Herrors. unfold Legacy.upsertCsv. rewrite Hclient.
  unfold Legacy.readFileSync. rewrite Hfile.
  rewrite (legacy_bind_val _ _ content) by reflexivity. cbv zeta.
  rewrite bool_decide_eq_true_2.
  - reflexivity.
  - destruct (errors _); [done|]. cbn [length]. lia.
Qed.

Lemma legacy_upsertCsv_batches (fuel : nat) (fs : FS) (filePath content : string)
    (config : Config) (remote0 : Remote) (b : Z) :
  createClient (supabaseUrl config) (supabaseKey config) = Some remote0 →
  fs filePath = Some (File content) →
  errors (Legacy.parse tokenizeAuto testFloat isoDate content) = [] →
  batchSize config = Js.Fin b → 1 ≤ b →
  let records := data (Legacy.parse tokenizeAuto testFloat isoDate content) in
  (batch_count (length records) b < fuel)%nat →
  let loop := Legacy.batchLoop Remote upsert fuel config records (Js.Fin 0) 0 remote0 in
  ∃ successCount,
    loop.2 = Val successCount ∧
    Legacy.upsertCsv tokenizeAuto testFloat isoDate Remote createClient upsert
      fuel fs filePath config
    = (Legacy.ReadFileSync filePath
         :: Legacy.Stdout (Legacy.FoundRecords (length records))
         :: loop.1
         ++ [Legacy.Stdout (Legacy.Summary successCount (length records))],
       Val tt) ∧
    Legacy.upsert_calls loop.1 = batches b records ∧
    length (Legacy.upsert_errors loop.1) = length (batches b records) ∧
    successCount
    = sum_list (accepted (Legacy.upsert_calls loop.1) (Legacy.upsert_errors loop.1)).
Proof.
  intros Hclient Hfile Herrors Hb Hpos. cbv zeta. intros Hfuel.
  set (records := data (Legacy.parse tokenizeAuto testFloat isoDate content)).
  destruct (legacy_batchLoop_same fuel config records (Js.Fin 0) 0 remote0)
    as (Hcalls & Hanswers & Hout).
  rewrite (batchLoop_start Remote upsert fuel config records b remote0 Hb Hpos
             Hfuel) in Hcalls, Hanswers, Hout.
  cbv zeta in Hcalls, Hanswers, Hout. cbn [fst snd] in Hcalls, Hanswers, Hout.
  eexists. split; [exact Hout|]. split; [|split; [|split]].
  - unfold Legacy.upsertCsv. rewrite Hclient.
    unfold Legacy.readFileSync. rewrite Hfile.
    rewrite (legacy_bind_val _ _ content) by reflexivity. cbv zeta.
    rewrite Herrors. cbn [length].
    rewrite bool_decide_eq_false_2 by lia.
    fold records.
    unfold Legacy.log at 1. rewrite legacy_bind_emit.
    rewrite (legacy_bind_val _ _ _ Hout). reflexivity.
  - rewrite Hcalls. apply runBatches_calls.
  - rewrite Hanswers. apply runBatches_answers.
  - rewrite Hcalls, Hanswers, runBatches_calls.
    rewrite runBatches_count at 1. done.
Qed.

(** X13: in the first version any error of the parse, a row whose number of
    cells differs from the header's among them, makes the run print the
    errors and return: the file has been read once, nothing is submitted,
    and the process ends normally, with status 0. *)
Theorem legacy_parse_errors_end_run (fuel : nat) (env : Env) (fs : FS)
    (file content : string) (options : Options) :
  Js.truthy (SUPABASE_URL env) = true →
  Js.truthy (SUPABASE_KEY env) = true →
  fs (resolve file) = Some (File content) →
  is_Some (createClient (default "" (SUPABASE_URL env))
             (default "" (SUPABASE_KEY env))) →
  let parsed := Legacy.parse tokenizeAuto testFloat isoDate content in
  let run :=
    Legacy.action tokenizeAuto testFloat isoDate resolve Remote createClient
      upsert fuel env fs file options in
  (errors parsed ≠ [] →
   run = ([Legacy.ExistsSync (resolve file);
           Legacy.Stdout (Legacy.UpsertingFrom (resolve file) (opt_table options));
           Legacy.Stdout (Legacy.UsingKey (opt_id options));
           Legacy.ReadFileSync (resolve file);
           Legacy.Stderr (Legacy.ParsingErrors (errors parsed))],
          Val tt) ∧
   exit_status run.2 = Some 0%nat ∧ Legacy.upsert_calls run.1 = []) ∧
  (∀ headers body,
     rows tokenizeAuto content = headers :: body →
     mismatched headers (headers :: body) ≠ [] → errors parsed ≠ []).
Proof.
  intros Hurl Hkey Hfile [remote0 Hclient]. cbv zeta. split.
  - intros Herrors.
    rewrite (legacy_action_started _ _ _ _ _ Hurl Hkey ltac:(by eexists)).
    cbv zeta.
    rewrite (legacy_upsertCsv_errors fuel fs (resolve file) content
               (configOf env options) remote0 Hclient Hfile Herrors).
    done.
  - intros headers body Hrows Hbad Hnone.
    pose proof (parse_header_errors tokenizeAuto testFloat isoDate Some content
                  headers body Hrows) as Hlen.
    unfold Legacy.parse in Hnone. rewrite Hnone in Hlen. cbn [length] in Hlen.
    pose proof (some_mismatch_invalid headers body Hbad). lia.
Qed.

(** X14: in the first version a parse without errors sends the records in
    the same batches as the present version does, counts the accepted ones
    and ends with the summary and status 0.  A file without data rows is no
    special case there: the loop makes no call and the summary reads 0 out
    of 0. *)
Theorem legacy_batches (fuel : nat) (env : Env) (fs : FS)
    (file content : string) (options : Options) (b : Z) :
  Js.truthy (SUPABASE_URL env) = true →
  Js.truthy (SUPABASE_KEY env) = true →
  fs (resolve file) = Some (File content) →
  is_Some (createClient (default "" (SUPABASE_URL env))
             (default "" (SUPABASE_KEY env))) →
  errors (Legacy.parse tokenizeAuto testFloat isoDate content) = [] →
  Js.parseInt (opt_batch options) = Js.Fin b → 1 ≤ b →
  let records := data (Legacy.parse tokenizeAuto testFloat isoDate content) in
  (batch_count (length records) b < fuel)%nat →
  let run :=
    Legacy.action tokenizeAuto testFloat isoDate resolve Remote createClient
      upsert fuel env fs file options in
  let calls := Legacy.upsert_calls run.1 in
  let answers := Legacy.upsert_errors run.1 in
  run.2 = Val tt ∧ exit_status run.2 = Some 0%nat ∧
  calls = batches b records ∧
  length answers = length calls ∧
  last run.1 = Some (Legacy.Stdout
                       (Legacy.Summary (sum_list (accepted calls answers))
                          (length records))) ∧
  (records = [] →
   calls = [] ∧ last run.1 = Some (Legacy.Stdout (Legacy.Summary 0 0))).
Proof.
  intros Hurl Hkey Hfile [remote0 Hclient] Herrors Hb Hpos. cbv zeta.
  intros Hfuel.
  rewrite (legacy_action_started _ _ _ _ _ Hurl Hkey ltac:(by eexists)).
  cbv zeta.
  destruct (legacy_upsertCsv_batches fuel fs (resolve file) content
              (configOf env options) remote0 b
              Hclient Hfile Herrors Hb Hpos Hfuel)
    as (sc & _ & -> & Hcalls & Hanswers & Hsc).
  cbn [fst snd exit_status].
  rewrite !legacy_calls_cons, !legacy_errors_cons.
  rewrite legacy_calls_app, legacy_errors_app.
  rewrite !legacy_calls_cons, !legacy_errors_cons.
  change (Legacy.upsert_calls []) with (@nil (list record)).
  change (Legacy.upsert_errors []) with (@nil (option string)).
  rewrite !app_nil_r.
  assert (∀ (x1 x2 x3 x4 x5 : Legacy.event) l x,
            last (x1 :: x2 :: x3 :: x4 :: x5 :: l ++ [x]) = Some x) as Hlast.
  { intros. by rewrite !app_comm_cons, last_snoc. }
  rewrite Hlast.
  split; [done|]. split; [done|]. split; [exact Hcalls|].
  split; [by rewrite Hanswers, Hcalls|]. split; [by rewrite <- Hsc|].
  intros Hnone.
  assert (batches b
            (data (Legacy.parse tokenizeAuto testFloat isoDate content)) = [])
    as Hempty.
  { rewrite Hnone. unfold batches. cbn [length]. by rewrite batch_count_0. }
  rewrite Hempty in Hcalls. split; [exact Hcalls|].
  assert (sc = 0%nat) as ->.
  { rewrite Hsc, Hcalls. by destruct (Legacy.upsert_errors _) as [|[]]. }
  by rewrite Hnone.
Qed.

End LegacyProperties.

(** * The further properties on concrete inputs *)

Lemma file_not_found_exits_witness :
  action Demo.tokenize Demo.testFloat Demo.isoDate Demo.resolve nat
    Demo.createClient (Demo.upsert []) 10 Demo.env (λ _, None) "data.csv"
    (Demo.options "50")
  = ([ExistsSync "/cwd/data.csv"; Stderr (FileNotFound "/cwd/data.csv")], Halt 1).
Proof.
  exact (file_not_found_exits Demo.tokenize Demo.testFloat Demo.isoDate
           Demo.resolve nat Demo.createClient (Demo.upsert []) 10 Demo.env
           (λ _, None) "data.csv" (Demo.options "50") eq_refl eq_refl eq_refl).
Defined.

Lemma missing_env_iff_falsy_witness :
  scenario_run [] 10 (mkEnv (Some "") (Some "secret")) Demo.two_records "50"
  = ([Stderr MissingEnv], Halt 1).
Proof.
  apply (proj1 (missing_env_iff_falsy Demo.tokenize Demo.testFloat Demo.isoDate
                  Demo.resolve nat Demo.createClient (Demo.upsert []) 10
                  (mkEnv (Some "") (Some "secret"))
                  (Demo.fs Demo.csv (Demo.file_of Demo.two_records)) "data.csv"
                  (Demo.options "50"))).
  right. left. reflexivity.
Defined.

Lemma client_failure_exits_witness :
  let run :=
    action Demo.tokenize Demo.testFloat Demo.isoDate Demo.resolve nat
      (λ _ _, None) (Demo.upsert []) 10 Demo.env
      (Demo.fs Demo.csv (Demo.file_of Demo.two_records)) "data.csv"
      (Demo.options "50") in
  run.2 = Halt 1 ∧
  List.filter is_file_io run.1 = [ExistsSync "/cwd/data.csv"] ∧
  upsert_calls run.1 = [].
Proof.
  destruct (client_failure_exits Demo.tokenize Demo.testFloat Demo.isoDate
              Demo.resolve nat (λ _ _, None) (Demo.upsert []) 10 Demo.env
              (Demo.fs Demo.csv (Demo.file_of Demo.two_records)) "data.csv"
              (Demo.options "50") eq_refl eq_refl
              (ex_intro _ (File (Demo.file_of Demo.two_records)) eq_refl)
              eq_refl)
    as (Hhalt & _ & Hio & Hcalls).
  exact (conj Hhalt (conj Hio Hcalls)).
Defined.

Lemma unreadable_file_exits_witness :
  ∃ message,
    action Demo.tokenize Demo.testFloat Demo.isoDate Demo.resolve nat
      Demo.createClient (Demo.upsert []) 10 Demo.env (λ _, Some Unreadable)
      "data.csv" (Demo.options "50")
    = ([ExistsSync "/cwd/data.csv";
        Stdout (UpsertingFrom "/cwd/data.csv" "contacts");
        Stdout (UsingKey "email"); ReadFileSync "/cwd/data.csv";
        Stderr (ProcessingError message)], Halt 1).
Proof.
  exact (unreadable_file_exits Demo.tokenize Demo.testFloat Demo.isoDate
           Demo.resolve nat Demo.createClient (Demo.upsert []) 10 Demo.env
           (λ _, Some Unreadable) "data.csv" (Demo.options "50")
           eq_refl eq_refl eq_refl (ex_intro _ 0%nat eq_refl)).
Defined.

Lemma file_read_twice_witness :
  List.filter is_file_io
    (scenario_run [1%nat] 10 Demo.env Demo.many "50").1
  = [ExistsSync "/cwd/data.csv"; ReadFileSync "/cwd/data.csv";
     ReadFileSync "/cwd/data.csv"].
Proof.
  exact (file_read_twice Demo.tokenize Demo.testFloat Demo.isoDate Demo.resolve
           nat Demo.createClient (Demo.upsert [1%nat]) 10 Demo.env
           (Demo.fs Demo.csv (Demo.file_of Demo.many)) "data.csv"
           (Demo.file_of Demo.many) (Demo.options "50")
           (scenario_ready Demo.many)).
Defined.

Lemma upserts_carry_parsed_records_witness :
  Forall (submits_from (Demo.options "2") (data (scenario_typed Demo.many)))
    (scenario_run [1%nat] 100 Demo.env Demo.many "2").1.
Proof.
  exact (upserts_carry_parsed_records Demo.tokenize Demo.testFloat Demo.isoDate
           Demo.resolve nat Demo.createClient (Demo.upsert [1%nat]) 100 Demo.env
           (Demo.fs Demo.csv (Demo.file_of Demo.many)) "data.csv"
           (Demo.options "2")).
Defined.

Lemma nan_batch_size_one_empty_call_witness :
  let config := mkConfig "u" "k" "contacts" "email" (Js.parseInt "fifty") in
  batchSize config = Js.NaN ∧
  batchLoop nat (Demo.upsert []) 2 config (replicate 3 ∅) (Js.Fin 0) 0 0%nat
  = ([Upsert "contacts" [] "email" None;
      Stdout (ProcessedBatch Js.NaN Js.NaN)], Val 0%nat).
Proof.
  split; [reflexivity|].
  exact (nan_batch_size_one_empty_call nat (Demo.upsert []) 0
           (mkConfig "u" "k" "contacts" "email" (Js.parseInt "fifty"))
           (replicate 3 ∅) 0%nat eq_refl ltac:(discriminate)).
Defined.

Lemma nonpositive_batch_size_never_ends_witness :
  let config := mkConfig "u" "k" "contacts" "email" (Js.parseInt "-5") in
  let loop :=
    batchLoop nat (Demo.upsert []) 7 config (replicate 3 ∅) (Js.Fin 0) 0 0%nat in
  batchSize config = Js.Fin (-5) ∧ loop.2 = Diverge ∧
  length (upsert_calls loop.1) = 7%nat.
Proof.
  cbv zeta. split; [reflexivity|].
  destruct (nonpositive_batch_size_never_ends nat (Demo.upsert []) 7
              (mkConfig "u" "k" "contacts" "email" (Js.parseInt "-5"))
              (replicate 3 ∅) (-5) 0%nat eq_refl ltac:(lia)
              ltac:(discriminate))
    as (Hd & Hn & _).
  exact (conj Hd Hn).
Defined.

Lemma success_count_bounds_witness :
  let config := mkConfig "u" "k" "contacts" "email" (Js.Fin 2) in
  let loop :=
    batchLoop nat (Demo.upsert [1%nat]) 4 config (replicate 5 ∅) (Js.Fin 0) 0 0%nat in
  ∃ successCount, loop.2 = Val successCount ∧ (successCount ≤ 5)%nat.
Proof.
  cbv zeta.
  destruct (success_count_bounds nat (Demo.upsert [1%nat]) 4
              (mkConfig "u" "k" "contacts" "email" (Js.Fin 2))
              (replicate 5 ∅) 2 0%nat eq_refl ltac:(lia)
              ltac:(vm_compute; lia))
    as (sc & Hval & _ & Hle & _).
  exists sc. exact (conj Hval Hle).
Defined.

Lemma progress_lines_numbered_witness :
  let config := mkConfig "u" "k" "contacts" "email" (Js.Fin 2) in
  let loop :=
    batchLoop nat (Demo.upsert [1%nat]) 4 config (replicate 5 ∅) (Js.Fin 0) 0 0%nat in
  batch_numbers loop.1 = [Js.Fin 1; Js.Fin 2; Js.Fin 3] ∧
  Forall (λ n, n = Js.Fin 3) (batch_totals loop.1).
Proof.
  cbv zeta.
  exact (progress_lines_numbered nat (Demo.upsert [1%nat]) 4
           (mkConfig "u" "k" "contacts" "email" (Js.Fin 2))
           (replicate 5 ∅) 2 0%nat eq_refl ltac:(lia) ltac:(vm_compute; lia)).
Defined.

Lemma problem_row_columns_witness :
  let rows := [["a"; "b"]; ["1"; "2"; Demo.in_quotes "3"]; ["1"]] in
  let run := showProblemRow ["a"; "b"] rows 1 in
  run.2 = Val tt ∧
  column_lines run.1 = [(1, false); (2, false); (3, true)]%nat ∧
  Stdout (ExtraColumn 3 "3") ∈ run.1.
Proof.
  cbv zeta.
  destruct (problem_row_columns ["a"; "b"]
              [["a"; "b"]; ["1"; "2"; Demo.in_quotes "3"]; ["1"]]
              1 ["1"; "2"; Demo.in_quotes "3"] eq_refl)
    as (Hval & Hlines & _ & Hextra).
  split; [exact Hval|]. split; [exact Hlines|].
  exact (Hextra 2%nat dquote (String.append "3" (String dquote "")) eq_refl
           ltac:(cbn; lia)).
Defined.

Lemma legacy_parse_errors_end_run_witness :
  let run :=
    Legacy.action Demo.tokenize Demo.testFloat Demo.isoDate Demo.resolve nat
      Demo.createClient (Demo.upsert []) 10 Demo.env
      (Demo.fs Demo.csv (Demo.file_of Demo.short_row)) "data.csv"
      (Demo.options "50") in
  exit_status run.2 = Some 0%nat ∧ Legacy.upsert_calls run.1 = [].
Proof.
  cbv zeta.
  destruct (legacy_parse_errors_end_run Demo.tokenize Demo.testFloat
              Demo.isoDate Demo.resolve nat Demo.createClient (Demo.upsert [])
              10 Demo.env (Demo.fs Demo.csv (Demo.file_of Demo.short_row))
              "data.csv" (Demo.file_of Demo.short_row) (Demo.options "50")
              eq_refl eq_refl eq_refl (ex_intro _ 0%nat eq_refl))
    as (Hrun & _).
  destruct (Hrun ltac:(vm_compute; discriminate)) as (_ & Hexit & Hcalls).
  exact (conj Hexit Hcalls).
Defined.

Lemma legacy_batches_witness :
  let run :=
    Legacy.action Demo.tokenize Demo.testFloat Demo.isoDate Demo.resolve nat
      Demo.createClient (Demo.upsert []) 10 Demo.env
      (Demo.fs Demo.csv (Demo.file_of Demo.two_records)) "data.csv"
      (Demo.options "50") in
  run.2 = Val tt ∧
  last run.1 = Some (Legacy.Stdout (Legacy.Summary 2 2)).
Proof.
  cbv zeta.
  destruct (legacy_batches Demo.tokenize Demo.testFloat Demo.isoDate
              Demo.resolve nat Demo.createClient (Demo.upsert []) 10 Demo.env
              (Demo.fs Demo.csv (Demo.file_of Demo.two_records)) "data.csv"
              (Demo.file_of Demo.two_records) (Demo.options "50") 50
              eq_refl eq_refl eq_refl (ex_intro _ 0%nat eq_refl)
              ltac:(vm_compute; reflexivity) eq_refl ltac:(lia)
              ltac:(vm_compute; lia))
    as (Hval & _ & _ & _ & Hlast & _).
  split; [exact Hval|].
  etransitivity; [exact Hlast | vm_compute; reflexivity].
Defined.

Lemma analysis_totals_witness :
  let run :=
    analyzeErrors Demo.tokenize (Demo.fs Demo.csv (Demo.file_of Demo.short_row))
      (scenario_typed Demo.short_row) Demo.csv in
  (∃ after, run.2 = Val after) ∧
  Stdout (TotalRows 2) ∈ run.1 ∧ Stdout (ValidRows 0) ∈ run.1.
Proof.
  cbv zeta.
  destruct (analysis_totals Demo.tokenize
              (Demo.fs Demo.csv (Demo.file_of Demo.short_row))
              (scenario_typed Demo.short_row) Demo.csv
              (Demo.file_of Demo.short_row) ["a"; "b"; "c"] [["1"; "2"]]
              eq_refl eq_refl)
    as (Hval & _ & Htotal & Hvalid & _).
  exact (conj Hval (conj Htotal Hvalid)).
Defined.

Lemma file_access_precedes_upserts_witness :
  ∃ before after,
    (scenario_run [] 10 Demo.env Demo.two_records "1").1 = before ++ after ∧
    upsert_calls before = [] ∧ List.filter is_file_io after = [].
Proof.
  exact (file_access_precedes_upserts Demo.tokenize Demo.testFloat Demo.isoDate
           Demo.resolve nat Demo.createClient (Demo.upsert []) 10 Demo.env
           (Demo.fs Demo.csv (Demo.file_of Demo.two_records)) "data.csv"
           (Demo.file_of Demo.two_records) (Demo.options "1")
           (scenario_ready Demo.two_records)).
Defined.
